(** * create_eslint_standard.py: a shallow embedding and its properties

    The script reads an ESLint configuration, turns its rules into Codacy
    patterns, reconciles them with the remote pattern catalog and pushes
    the result in batches.  This development embeds the functions of
    [create_eslint_standard.py] that carry that logic and states the
    properties of the specification over them.

    Conventions.
    - Python text is a [string]: a sequence of characters with code point
      below 256.
    - A value produced by [json.loads] is a [json]; a Python [dict] whose
      iteration order matters is an association list in insertion order.
    - A dictionary used for lookup only is a [gmap string _].
    - Remote calls go through an oracle that sees the trace of everything
      that happened before; the functions thread the trace and return
      either a value or the exception that escapes them. *)

From Stdlib Require Import ZArith Ascii String List Bool Lia.
From Stdlib Require Import Floats.SpecFloat.
From stdpp Require Import base option list strings gmap pretty.

Set Warnings "-register-all".

Local Open Scope Z_scope.

(** Characters that a string literal cannot hold. *)
Definition dquote : ascii := "034"%char.
Definition squote : ascii := "039"%char.
Definition newline : ascii := "010"%char.
Definition DQ : string := String dquote EmptyString.
Definition NL : string := String newline EmptyString.

(** ** Values read by [json.loads] *)

Inductive json : Type :=
| JNull
| JBool (b : bool)
| JInt (n : Z)
| JFloat (f : spec_float)
| JStr (s : string)
| JList (l : list json)
| JDict (d : list (string * json)).

(** [isinstance(v, (int, float))]: Python's [bool] is a subclass of [int]. *)
Definition is_number (v : json) : bool :=
  match v with
  | JBool _ | JInt _ | JFloat _ => true
  | _ => false
  end.

(** [isinstance(v, str)]. *)
Definition is_str (v : json) : bool :=
  match v with JStr _ => true | _ => false end.

(** [isinstance(v, dict)] and [isinstance(v, (list, dict))]. *)
Definition is_dict (v : json) : bool :=
  match v with JDict _ => true | _ => false end.

Definition is_list_or_dict (v : json) : bool :=
  match v with JList _ | JDict _ => true | _ => false end.

(** The exact value of a float against an integer, as Python's [==]
    between a [float] and an [int] compares them. *)
Definition float_eq_int (f : spec_float) (n : Z) : bool :=
  match f with
  | S754_zero _ => n =? 0
  | S754_infinity _ | S754_nan => false
  | S754_finite s m e =>
      let v := if s then Z.neg m else Z.pos m in
      if 0 <=? e then v * 2 ^ e =? n else v =? n * 2 ^ (- e)
  end.

(** [v == n] for an integer literal [n]. *)
Definition py_eq_int (v : json) (n : Z) : bool :=
  match v with
  | JBool b => (if b then 1 else 0) =? n
  | JInt z => z =? n
  | JFloat f => float_eq_int f n
  | _ => false
  end.

(** [v == s] for a string literal [s]. *)
Definition py_eq_str (v : json) (s : string) : bool :=
  match v with
  | JStr t => String.eqb t s
  | _ => false
  end.

(** Truth value of a JSON value in a Python condition. *)
Definition py_truthy (v : json) : bool :=
  match v with
  | JNull => false
  | JBool b => b
  | JInt n => negb (n =? 0)
  | JFloat f => negb (float_eq_int f 0)
  | JStr s => negb (String.eqb s EmptyString)
  | JList l => match l with [] => false | _ => true end
  | JDict d => match d with [] => false | _ => true end
  end.

(** ** Text forms of values: [str] and [json.dumps] *)

Definition hex_digit (n : N) : ascii :=
  ascii_of_N (if (n <? 10)%N then 48 + n else 87 + n).

Definition escape_char (c : ascii) : string :=
  let n := N_of_ascii c in
  if (n =? 34)%N then "\" +:+ DQ
  else if (n =? 92)%N then "\\"
  else if (n =? 10)%N then "\n"
  else if (n =? 13)%N then "\r"
  else if (n =? 9)%N then "\t"
  else if (n =? 12)%N then "\f"
  else if (n =? 8)%N then "\b"
  else if ((32 <=? n) && (n <=? 126))%N then String c EmptyString
  else "\u00" +:+ String (hex_digit (n / 16)) (String (hex_digit (n mod 16)) EmptyString).

Fixpoint escape_chars (s : string) : string :=
  match s with
  | EmptyString => EmptyString
  | String c r => escape_char c +:+ escape_chars r
  end.

(** [json.encoder.encode_basestring_ascii]. *)
Definition encode_basestring_ascii (s : string) : string :=
  DQ +:+ escape_chars s +:+ DQ.

(** ** Translated patterns *)

(** One [{"name": ..., "value": ...}] entry. *)
Record NameValue : Type := mkNameValue {
  param_name : string;
  param_value : string
}.

(** The dictionary built at lines 370-388 of the script; the key
    ["parameters"] is absent when [pat_parameters] is [None]. *)
Record Pattern : Type := mkPattern {
  pat_id : string;
  pat_enabled : bool;
  pat_patternId : string;
  pat_parameters : option (list NameValue)
}.

(** A stand-in for [float.__repr__] where no float is printed. *)
Definition no_floats : bool -> positive -> Z -> string :=
  fun _ _ _ => EmptyString.

Section Text.

(** [float.__repr__] of a finite non-zero float is the shortest decimal
    that reads back as the same float; it is taken as given. *)
Variable finite_repr : bool -> positive -> Z -> string.

Definition float_str (f : spec_float) : string :=
  match f with
  | S754_zero s => if s then "-0.0" else "0.0"
  | S754_infinity s => if s then "-inf" else "inf"
  | S754_nan => "nan"
  | S754_finite s m e => finite_repr s m e
  end.

Definition float_json (f : spec_float) : string :=
  match f with
  | S754_infinity s => if s then "-Infinity" else "Infinity"
  | S754_nan => "NaN"
  | _ => float_str f
  end.

(** [json.dumps(v)] with the default separators and [ensure_ascii]. *)
Fixpoint json_dumps (v : json) : string :=
  match v with
  | JNull => "null"
  | JBool b => if b then "true" else "false"
  | JInt n => pretty n
  | JFloat f => float_json f
  | JStr s => encode_basestring_ascii s
  | JList l => "[" +:+ String.concat ", " (map json_dumps l) +:+ "]"
  | JDict d =>
      "{" +:+ String.concat ", "
        (map (fun kv => encode_basestring_ascii (fst kv) +:+ ": " +:+ json_dumps (snd kv)) d)
      +:+ "}"
  end.

(** [str(v)] for the scalars.  The translator never takes [str] of a list
    or a mapping, which line 380 has replaced by its serialised text
    before; that text is what the last case returns. *)
Definition py_str (v : json) : string :=
  match v with
  | JNull => "None"
  | JBool b => if b then "True" else "False"
  | JInt n => pretty n
  | JFloat f => float_str f
  | JStr s => s
  | JList _ | JDict _ => json_dumps v
  end.

(** ** Rule translator: [map_eslint_rule_to_codacy] *)

(** ["error" if x == 2 else "warn"], lines 347 and 364. *)
Definition severity_of_number (x : json) : json :=
  JStr (if py_eq_int x 2 then "error" else "warn").

(** Lines 344-348: a number is either dropped (0) or replaced by the
    one-element list holding its symbolic severity. *)
Definition normalise_scalar (rule_config : json) : option json :=
  if is_number rule_config then
    if py_eq_int rule_config 0 then None
    else Some (JList [severity_of_number rule_config])
  else Some rule_config.

(** Line 352: [rule_config[1] if len(rule_config) > 1 else None], given
    [rule_config[1:]]. *)
Definition second_or_none (rest : list json) : json :=
  match rest with parameters :: _ => parameters | [] => JNull end.

(** Lines 350-361: the pair [(severity, parameters)].  [None] stands for
    both ways of returning nothing here: the [IndexError] of
    [rule_config[0]] on an empty list, caught at line 391, and the
    unexpected-type branch. *)
Definition split_config (rule_config : json) : option (json * json) :=
  match rule_config with
  | JList [] => None
  | JList (severity :: rest) => Some (severity, second_or_none rest)
  | JStr _ => Some (rule_config, JNull)
  | JDict _ => Some (JStr "error", rule_config)
  | _ => None
  end.

(** Lines 363-364. *)
Definition symbolic_severity (severity : json) : json :=
  if is_number severity then severity_of_number severity else severity.

(** Line 365: [severity in ['error', 'warn', 2, 1]]. *)
Definition severity_enabled (severity : json) : bool :=
  py_eq_str severity "error" || py_eq_str severity "warn"
  || py_eq_int severity 2 || py_eq_int severity 1.

(** Lines 378-385. *)
Definition mapped_param (kv : string * json) : NameValue :=
  let param_value :=
    if is_list_or_dict (snd kv) then JStr (json_dumps (snd kv)) else snd kv in
  mkNameValue (fst kv) (py_str param_value).

(** Lines 376-388. *)
Definition map_parameters (parameters : json) : option (list NameValue) :=
  if py_truthy parameters && is_dict parameters then
    match parameters with
    | JDict d =>
        match map mapped_param d with
        | [] => None
        | mapped_parameters => Some mapped_parameters
        end
    | _ => None
    end
  else None.

Definition map_eslint_rule_to_codacy (rule_name : string) (rule_config : json)
  : option Pattern :=
  rule_config ← normalise_scalar rule_config;
  '(severity, parameters) ← split_config rule_config;
  let severity := symbolic_severity severity in
  if severity_enabled severity then
    Some (mkPattern rule_name true rule_name (map_parameters parameters))
  else None.

(** The [parameters] variable of lines 352, 355 and 358, when the
    function gets that far. *)
Definition rule_payload (rule_config : json) : option json :=
  snd <$> (normalise_scalar rule_config ≫= split_config).

End Text.

(** ** String helpers used by the reconciler *)

(** [s[n:]]. *)
Fixpoint str_drop (n : nat) (s : string) : string :=
  match n, s with
  | O, _ => s
  | S _, EmptyString => EmptyString
  | S n', String _ r => str_drop n' r
  end.

(** [s.replace(old, new)] for one-character [old] and [new]. *)
Fixpoint replace_char (old new : ascii) (s : string) : string :=
  match s with
  | EmptyString => EmptyString
  | String c r =>
      String (if Ascii.eqb c old then new else c) (replace_char old new r)
  end.

(** [s.replace('/', '_')]. *)
Definition slash_to_underscore (s : string) : string :=
  replace_char "/"%char "_"%char s.

(** [pattern_id[8:] if pattern_id.startswith('ESLint8_') else pattern_id]. *)
Definition strip_eslint8 (pattern_id : string) : string :=
  if String.prefix "ESLint8_" pattern_id then str_drop 8 pattern_id else pattern_id.

(** ** The remote catalog *)

(** The value under ['patternDefinition']: its ['id'], when it has one,
    and whatever else the platform sends. *)
Record PatternDefinition : Type := mkPatternDefinition {
  def_id : option string;
  def_rest : list (string * json)
}.

(** One entry of the pattern listing. *)
Record CatalogPattern : Type := mkCatalogPattern {
  patternDefinition : option PatternDefinition;
  pattern_rest : list (string * json)
}.

(** The guard ['patternDefinition' in pattern and 'id' in
    pattern['patternDefinition']] together with the read of the id. *)
Definition catalog_id (pattern : CatalogPattern) : option string :=
  patternDefinition pattern ≫= def_id.

(** *** [map_eslint_to_codacy_patterns], lines 24-36 *)

Definition codacy_pattern_map_step (acc : gmap string PatternDefinition)
    (pattern : CatalogPattern) : gmap string PatternDefinition :=
  match patternDefinition pattern with
  | Some definition =>
      match def_id definition with
      | Some pattern_id =>
          let acc := <[pattern_id := definition]> acc in
          if String.prefix "ESLint8_" pattern_id
          then <[str_drop 8 pattern_id := definition]> acc
          else acc
      | None => acc
      end
  | None => acc
  end.

Definition codacy_pattern_map (all_codacy_patterns : list CatalogPattern)
  : gmap string PatternDefinition :=
  foldl codacy_pattern_map_step ∅ all_codacy_patterns.

(** The keys that the loop writes for a catalog pattern named
    [pattern_id]: the identifier and its prefix-stripped form. *)
Definition writes_key (pattern_id key : string) : bool :=
  String.eqb key pattern_id || String.eqb key (strip_eslint8 pattern_id).

(** [pattern] writes neither of the two keys of [pattern_id]. *)
Definition leaves_keys_of (pattern_id : string) (pattern : CatalogPattern) : bool :=
  match catalog_id pattern with
  | Some other =>
      negb (writes_key other pattern_id
            || writes_key other (strip_eslint8 pattern_id))
  | None => true
  end.

(** ** Pattern catalog reconciler: [update_coding_standard_tool], lines 172-216 *)

(** Lines 173-180. *)
Definition pattern_mapping_step (pattern_mapping : gmap string string)
    (pattern : CatalogPattern) : gmap string string :=
  match catalog_id pattern with
  | Some pattern_id =>
      let base_id := strip_eslint8 pattern_id in
      let pattern_mapping := <[base_id := pattern_id]> pattern_mapping in
      let normalized_id := slash_to_underscore base_id in
      <[normalized_id := pattern_id]> pattern_mapping
  | None => pattern_mapping
  end.

Definition build_pattern_mapping (all_patterns : list CatalogPattern)
  : gmap string string :=
  foldl pattern_mapping_step ∅ all_patterns.

(** An entry of [enabled_patterns] or [disabled_patterns]. *)
Record Directive : Type := mkDirective {
  dir_id : string;
  dir_enabled : bool;
  dir_parameters : list NameValue
}.

(** Lines 187-195: the direct key, else the normalised key. *)
Definition find_codacy_id (pattern_mapping : gmap string string)
    (rule_name : string) : option string :=
  let normalized_rule := slash_to_underscore rule_name in
  match pattern_mapping !! rule_name with
  | Some codacy_id => Some codacy_id
  | None => pattern_mapping !! normalized_rule
  end.

(** Lines 197-205 for one pattern of the configuration; [if codacy_id:]
    is false for the empty string as well as for [None]. *)
Definition enable_directive (pattern_mapping : gmap string string)
    (pattern : Pattern) : list Directive :=
  match find_codacy_id pattern_mapping (pat_id pattern) with
  | Some codacy_id =>
      if String.eqb codacy_id EmptyString then []
      else [mkDirective codacy_id true (default [] (pat_parameters pattern))]
  | None => []
  end.

Definition enabled_patterns_of (pattern_mapping : gmap string string)
    (patterns : list Pattern) : list Directive :=
  flat_map (enable_directive pattern_mapping) patterns.

(** Line 211: [any(ep['id'] == pattern_id for ep in enabled_patterns)]. *)
Definition any_enabled (enabled_patterns : list Directive) (pattern_id : string) : bool :=
  existsb (fun ep => String.eqb (dir_id ep) pattern_id) enabled_patterns.

(** Lines 208-216 for one catalog entry. *)
Definition disable_directive (enabled_patterns : list Directive)
    (pattern : CatalogPattern) : list Directive :=
  match catalog_id pattern with
  | Some pattern_id =>
      if any_enabled enabled_patterns pattern_id then []
      else [mkDirective pattern_id false []]
  | None => []
  end.

Definition disabled_patterns_of (enabled_patterns : list Directive)
    (all_patterns : list CatalogPattern) : list Directive :=
  flat_map (disable_directive enabled_patterns) all_patterns.

(** The two lists computed between lines 172 and 216. *)
Definition reconcile (all_patterns : list CatalogPattern) (patterns : list Pattern)
  : list Directive * list Directive :=
  let pattern_mapping := build_pattern_mapping all_patterns in
  let enabled_patterns := enabled_patterns_of pattern_mapping patterns in
  (enabled_patterns, disabled_patterns_of enabled_patterns all_patterns).

(** ** Remote calls *)

Definition ESLINT_TOOL_UUID : string := "f8b29663-2cb2-498d-b923-a10c6a8c05cd".

(** What a call can raise: [requests.exceptions.RequestException] (with
    its subclasses, [HTTPError] among them) or any other [Exception]. *)
Inductive exn : Type :=
| RequestException (msg : string)
| OtherException (msg : string).

Definition is_request_exception (e : exn) : bool :=
  match e with RequestException _ => true | OtherException _ => false end.

(** An entry of the tool listing, read through [tool['uuid']]. *)
Record Tool : Type := mkTool { uuid : string }.

(** A page of the pattern listing: [data['data']] when the key is there,
    and [data.get('pagination', {}).get('cursor')]. *)
Record Page : Type := mkPage {
  page_data : option (list CatalogPattern);
  page_cursor : option string
}.

(** What the process does to the outside, in order.  The organization,
    the coding standard, the provider and the token are the same in every
    call of a run and are left out. *)
Inductive event : Type :=
| EvGetTools
| EvGetPatterns (tool_uuid : string) (cursor : option string)
| EvPatch (tool_uuid : string) (enabled : bool) (patterns : list Directive)
| EvSleep (seconds : nat).

(** The platform: each answer may depend on everything done so far. *)
Record Remote : Type := mkRemote {
  get_tools : list event -> exn + list Tool;
  get_patterns : list event -> string -> option string -> exn + Page;
  patch_tool : list event -> string -> bool -> list Directive -> exn + unit
}.

(** The result of running a piece of the script: it returns, an exception
    escapes, or the bound on the iterations of [while True] was reached. *)
Inductive outcome (A : Type) : Type :=
| Returned (a : A)
| Raised (e : exn)
| OutOfFuel.
Arguments Returned {A} a.
Arguments Raised {A} e.
Arguments OutOfFuel {A}.

Definition M (A : Type) : Type := list event -> outcome A * list event.

#[global] Instance M_ret : MRet M := fun A a t => (Returned a, t).

#[global] Instance M_bind : MBind M := fun A B f m t =>
  match m t with
  | (Returned a, t') => f a t'
  | (Raised e, t') => (Raised e, t')
  | (OutOfFuel, t') => (OutOfFuel, t')
  end.

Definition raise {A : Type} (e : exn) : M A := fun t => (Raised e, t).

Definition out_of_fuel {A : Type} : M A := fun t => (OutOfFuel, t).

(** [try: m  except Exception as e: ...] as a value. *)
Definition catch {A : Type} (m : M A) : M (exn + A) := fun t =>
  match m t with
  | (Returned a, t') => (Returned (inr a), t')
  | (Raised e, t') => (Returned (inl e), t')
  | (OutOfFuel, t') => (OutOfFuel, t')
  end.

(** A remote call: the event is recorded, then the platform answers. *)
Definition call {A : Type} (ev : event) (answer : list event -> exn + A) : M A :=
  fun t =>
    match answer t with
    | inl e => (Raised e, t ++ [ev])
    | inr a => (Returned a, t ++ [ev])
    end.

(** [time.sleep(seconds)]. *)
Definition sleep (seconds : nat) : M unit :=
  fun t => (Returned tt, t ++ [EvSleep seconds]).

(** [range(start, stop, step)]; [None] is the [ValueError] of a zero step. *)
Definition py_range (start stop step : Z) : option (list Z) :=
  if step =? 0 then None
  else
    let n :=
      if 0 <? step
      then (if start <? stop then (stop - start - 1) / step + 1 else 0)
      else (if stop <? start then (start - stop - 1) / (- step) + 1 else 0) in
    Some (map (fun k => start + Z.of_nat k * step) (seq 0 (Z.to_nat n))).

(** [l[lo:hi]] for [0 <= lo]; the bounds are clamped to the list. *)
Definition py_slice {A : Type} (l : list A) (lo hi : Z) : list A :=
  take (Z.to_nat (hi - lo)) (drop (Z.to_nat lo) l).

(** [cursor if cursor else None]: the test [if cursor:] is false for
    [None] and for the empty string. *)
Definition cursor_truthy (cursor : option string) : option string :=
  match cursor with
  | Some c => if String.eqb c EmptyString then None else Some c
  | None => None
  end.

Section WithRemote.

Variable remote : Remote.

(** [requests.patch(url, json={"enabled": ..., "patterns": ...})]
    followed by [raise_for_status()]. *)
Definition patch (tool_uuid : string) (enabled : bool) (patterns : list Directive)
  : M unit :=
  call (EvPatch tool_uuid enabled patterns)
       (fun t => patch_tool remote t tool_uuid enabled patterns).

(** *** [list_coding_standard_tools] *)
Definition list_coding_standard_tools : M (list Tool) :=
  call EvGetTools (get_tools remote).

(** *** [list_tool_patterns]

    One round of the [while True] loop per unit of fuel. *)
Fixpoint list_tool_patterns_loop (fuel : nat) (tool_uuid : string)
    (all_patterns : list CatalogPattern) (cursor : option string)
  : M (list CatalogPattern) :=
  match fuel with
  | O => out_of_fuel
  | S fuel' =>
      data ← call (EvGetPatterns tool_uuid (cursor_truthy cursor))
                  (fun t => get_patterns remote t tool_uuid (cursor_truthy cursor));
      let all_patterns := all_patterns ++ default [] (page_data data) in
      let cursor := page_cursor data in
      match cursor_truthy cursor with
      | None => mret all_patterns
      | Some _ => list_tool_patterns_loop fuel' tool_uuid all_patterns cursor
      end
  end.

Definition list_tool_patterns (fuel : nat) (tool_uuid : string)
  : M (list CatalogPattern) :=
  list_tool_patterns_loop fuel tool_uuid [] None.

(** *** [batch_update_patterns]

    The [while retries > 0] loop of lines 408-419, entered with
    [retries] attempts left. *)
Fixpoint patch_with_retries (retries : nat) (tool_uuid : string)
    (batch : list Directive) : M unit :=
  match retries with
  | O => mret tt
  | S retries' =>
      r ← catch (patch tool_uuid true batch);
      match r with
      | inr _ => mret tt
      | inl e =>
          if is_request_exception e then
            match retries' with
            | O => raise e
            | S _ => sleep 2 ≫= fun _ => patch_with_retries retries' tool_uuid batch
            end
          else raise e
      end
  end.

(** The batches in the order of the [for] loop. *)
Definition batches (patterns : list Directive) (batch_size : Z)
  : option (list (list Directive)) :=
  (fun starts => map (fun i => py_slice patterns i (i + batch_size)) starts)
    <$> py_range 0 (Z.of_nat (length patterns)) batch_size.

Fixpoint update_batches (tool_uuid : string) (bs : list (list Directive)) : M unit :=
  match bs with
  | [] => mret tt
  | batch :: rest =>
      patch_with_retries 3 tool_uuid batch ≫= fun _ => update_batches tool_uuid rest
  end.

Definition batch_update_patterns (tool_uuid : string) (patterns : list Directive)
    (batch_size : Z) : M unit :=
  match batches patterns batch_size with
  | None => raise (OtherException "ValueError: range() arg 3 must not be zero")
  | Some bs => update_batches tool_uuid bs
  end.

(** *** [update_coding_standard_tool] *)
Definition update_coding_standard_tool (fuel : nat) (tool_uuid : string)
    (enabled : bool) (patterns : list Pattern) : M unit :=
  if negb enabled then patch tool_uuid false []
  else if String.eqb tool_uuid ESLINT_TOOL_UUID then
    all_patterns ← list_tool_patterns fuel tool_uuid;
    let '(enabled_patterns, disabled_patterns) := reconcile all_patterns patterns in
    _ ← match enabled_patterns with
        | [] => mret tt
        | _ => batch_update_patterns tool_uuid enabled_patterns 1000
        end;
    match disabled_patterns with
    | [] => mret tt
    | _ => batch_update_patterns tool_uuid disabled_patterns 1000
    end
  else patch tool_uuid enabled [].

(** *** [disable_all_tools]

    The [while retries > 0] loop of lines 140-152 for one tool. *)
Fixpoint disable_with_retries (fuel : nat) (retries : nat) (tool_uuid : string)
  : M unit :=
  match retries with
  | O => mret tt
  | S retries' =>
      r ← catch (update_coding_standard_tool fuel tool_uuid false []);
      match r with
      | inr _ => mret tt
      | inl _ =>
          match retries' with
          | O => mret tt
          | S _ => sleep 2 ≫= fun _ => disable_with_retries fuel retries' tool_uuid
          end
      end
  end.

Fixpoint disable_each (fuel : nat) (tools : list Tool) : M unit :=
  match tools with
  | [] => mret tt
  | tool :: rest =>
      disable_with_retries fuel 3 (uuid tool) ≫= fun _ => disable_each fuel rest
  end.

Definition disable_all_tools (fuel : nat) : M unit :=
  tools ← list_coding_standard_tools;
  disable_each fuel tools.

End WithRemote.

(** ** A catalog served in pages

    The vocabulary for saying that the platform holds a catalog cut into
    pages linked by cursors. *)

(** The patterns of the pages, in order. *)
Definition pages_data (pages : list Page) : list CatalogPattern :=
  flat_map (fun page => default [] (page_data page)) pages.

(** The listing calls that fetch [pages], the first one sent with
    [cursor]. *)
Fixpoint listing_calls (tool_uuid : string) (cursor : option string)
    (pages : list Page) : list event :=
  match pages with
  | [] => []
  | page :: rest =>
      EvGetPatterns tool_uuid cursor
      :: listing_calls tool_uuid (cursor_truthy (page_cursor page)) rest
  end.

(** After the trace [t], a listing sent with [cursor] is answered with
    the first of [pages], whose cursor leads to the next one, and so on;
    the last page returns no cursor. *)
Inductive served (remote : Remote) (tool_uuid : string)
  : list event -> option string -> list Page -> Prop :=
| served_last t cursor page :
    get_patterns remote t tool_uuid cursor = inr page ->
    cursor_truthy (page_cursor page) = None ->
    served remote tool_uuid t cursor [page]
| served_more t cursor page next rest :
    get_patterns remote t tool_uuid cursor = inr page ->
    cursor_truthy (page_cursor page) = Some next ->
    served remote tool_uuid (t ++ [EvGetPatterns tool_uuid cursor]) (Some next) rest ->
    served remote tool_uuid t cursor (page :: rest).

(** ** Regular expressions

    The fragment of Python's [re] that the script uses: literals and
    character classes, concatenation, alternation, greedy and lazy
    repetition of a one-character class, one capturing group and
    lookahead.  Matching is by backtracking in Python's order of
    preference; the continuation receives the rest of the text and the
    text captured by the group. *)

Inductive regex : Type :=
| Eps
| Chr (p : ascii -> bool)
| Seq (r1 r2 : regex)
| Alt (r1 r2 : regex)
| Star (p : ascii -> bool)
| LazyStar (p : ascii -> bool)
| Group (r : regex)
| Lookahead (r : regex).

Definition is_char (c : ascii) : ascii -> bool := Ascii.eqb c.

(** [.] under [re.S]. *)
Definition any_char : ascii -> bool := fun _ => true.

Definition in_range (lo hi : N) (c : ascii) : bool :=
  ((lo <=? N_of_ascii c) && (N_of_ascii c <=? hi))%N.

(** [\s] on text, and the characters [str.strip()] removes: tab to
    carriage return, the four separators 28-31, the space, NEL and the
    no-break space. *)
Definition is_space (c : ascii) : bool :=
  in_range 9 13 c || in_range 28 32 c
  || (N_of_ascii c =? 133)%N || (N_of_ascii c =? 160)%N.

(** [[a-zA-Z0-9_-]]. *)
Definition is_key_char (c : ascii) : bool :=
  in_range 97 122 c || in_range 65 90 c || in_range 48 57 c
  || Ascii.eqb c "_"%char || Ascii.eqb c "-"%char.

(** The class of the two quote characters. *)
Definition is_quote (c : ascii) : bool :=
  Ascii.eqb c squote || Ascii.eqb c dquote.

(** The class of a closing brace or bracket. *)
Definition is_closer (c : ascii) : bool :=
  Ascii.eqb c "}"%char || Ascii.eqb c "]"%char.

(** A literal piece of a pattern. *)
Fixpoint lit (s : string) : regex :=
  match s with
  | EmptyString => Eps
  | String c s' => Seq (Chr (is_char c)) (lit s')
  end.

(** The pieces of a pattern written one after the other. *)
Fixpoint seqs (rs : list regex) : regex :=
  match rs with
  | [] => Eps
  | [r] => r
  | r :: rs' => Seq r (seqs rs')
  end.

(** [p+]. *)
Definition Plus (p : ascii -> bool) : regex := Seq (Chr p) (Star p).

(** [s[:n]]. *)
Fixpoint str_take (n : nat) (s : string) : string :=
  match n, s with
  | O, _ => EmptyString
  | S _, EmptyString => EmptyString
  | S n', String c r => String c (str_take n' r)
  end.

(** The part of [s] consumed when [rest] is what is left of it. *)
Definition consumed (s rest : string) : string :=
  str_take (String.length s - String.length rest) s.

Section Matcher.

Context {R : Type}.

Fixpoint star_greedy (p : ascii -> bool) (s : string)
    (k : string -> option R) : option R :=
  match s with
  | String c r =>
      if p c then
        match star_greedy p r k with
        | Some x => Some x
        | None => k s
        end
      else k s
  | EmptyString => k s
  end.

Fixpoint star_lazy (p : ascii -> bool) (s : string)
    (k : string -> option R) : option R :=
  match k s with
  | Some x => Some x
  | None =>
      match s with
      | String c r => if p c then star_lazy p r k else None
      | EmptyString => None
      end
  end.

End Matcher.

Fixpoint match_re (r : regex) (R : Type) (s : string) (g : option string)
    (k : string -> option string -> option R) {struct r} : option R :=
  match r with
  | Eps => k s g
  | Chr p =>
      match s with
      | String c s' => if p c then k s' g else None
      | EmptyString => None
      end
  | Seq r1 r2 => match_re r1 R s g (fun s' g' => match_re r2 R s' g' k)
  | Alt r1 r2 =>
      match match_re r1 R s g k with
      | Some x => Some x
      | None => match_re r2 R s g k
      end
  | Star p => star_greedy p s (fun s' => k s' g)
  | LazyStar p => star_lazy p s (fun s' => k s' g)
  | Group r1 => match_re r1 R s g (fun s' _ => k s' (Some (consumed s s')))
  | Lookahead r1 =>
      match match_re r1 (option string) s g (fun _ g' => Some g') with
      | Some g' => k s g'
      | None => None
      end
  end.

(** A match of [r] at the start of [s]: the text left after it and the
    text of the group. *)
Definition match_here (r : regex) (s : string) : option (string * option string) :=
  match_re r _ s None (fun s' g => Some (s', g)).

(** [m.group(1)]. *)
Definition group1 (g : option string) : string := default EmptyString g.

(** [re.sub(r, repl, s)], scanning from the left; [skip] characters of
    the last match are still to be passed over.  None of the patterns of
    the script matches the empty text, and a match of no character is
    treated as no match here. *)
Fixpoint re_sub_from (r : regex) (repl : option string -> string)
    (s : string) (skip : nat) : string :=
  match s with
  | EmptyString => EmptyString
  | String c rest =>
      match skip with
      | S n => re_sub_from r repl rest n
      | O =>
          match match_here r s with
          | Some (s', g) =>
              match (String.length s - String.length s')%nat with
              | O => String c (re_sub_from r repl rest O)
              | S n => repl g +:+ re_sub_from r repl rest n
              end
          | None => String c (re_sub_from r repl rest O)
          end
      end
  end.

Definition re_sub (r : regex) (repl : option string -> string) (s : string) : string :=
  re_sub_from r repl s O.

(** ** More string methods *)

(** [s.lstrip(chars)] and [s.rstrip(chars)] for the class [p]. *)
Fixpoint lstrip (p : ascii -> bool) (s : string) : string :=
  match s with
  | String c r => if p c then lstrip p r else s
  | EmptyString => EmptyString
  end.

Fixpoint rstrip (p : ascii -> bool) (s : string) : string :=
  match s with
  | String c r =>
      match rstrip p r with
      | EmptyString => if p c then EmptyString else String c EmptyString
      | r' => String c r'
      end
  | EmptyString => EmptyString
  end.

(** [s.strip(chars)]; [s.strip()] is [strip is_space s]. *)
Definition strip (p : ascii -> bool) (s : string) : string :=
  rstrip p (lstrip p s).

(** [s.split(sep)] for a one-character separator. *)
Fixpoint split_on (sep : ascii) (s : string) : list string :=
  match s with
  | EmptyString => [EmptyString]
  | String c r =>
      if Ascii.eqb c sep then EmptyString :: split_on sep r
      else
        match split_on sep r with
        | h :: t => String c h :: t
        | [] => [String c EmptyString]
        end
  end.

(** [c in s]. *)
Fixpoint contains_char (c : ascii) (s : string) : bool :=
  match s with
  | EmptyString => false
  | String d r => Ascii.eqb d c || contains_char c r
  end.

(** [s.replace(c, '')]. *)
Fixpoint remove_char (c : ascii) (s : string) : string :=
  match s with
  | EmptyString => EmptyString
  | String d r => if Ascii.eqb d c then remove_char c r else String d (remove_char c r)
  end.

(** [s.replace(old, new)] for a non-empty [old]; [skip] characters of
    the last occurrence are still to be passed over. *)
Fixpoint replace_from (old new : string) (s : string) (skip : nat) : string :=
  match s with
  | EmptyString => EmptyString
  | String c rest =>
      match skip with
      | S n => replace_from old new rest n
      | O =>
          if String.prefix old s
          then new +:+ replace_from old new rest (String.length old - 1)
          else String c (replace_from old new rest O)
      end
  end.

Definition replace_str (old new s : string) : string := replace_from old new s O.

(** ** Config text normalizer *)

(** The pattern of [preprocess_extends]: the key [extends] in double
    quotes, a colon, an opening bracket, as few characters as possible
    (the group) and a closing bracket; white space is allowed around the
    colon. *)
Definition extends_pattern : regex :=
  seqs [lit (DQ +:+ "extends" +:+ DQ); Star is_space; Chr (is_char ":"%char);
        Star is_space; Chr (is_char "["%char); Group (LazyStar any_char);
        Chr (is_char "]"%char)].

(** The list comprehension of line 250. *)
Definition extends_lines (extends_content : string) : list string :=
  map (fun line => strip (is_char dquote) (strip (is_char ","%char) (strip is_space line)))
      (split_on newline extends_content).

(** The body of the [for] loop, lines 254-267, for one line. *)
Definition process_line (line : string) : list string :=
  if String.eqb line EmptyString then []
  else if String.prefix "eslint:" line then [DQ +:+ line +:+ DQ]
  else if String.prefix "plugin:" line then [DQ +:+ line +:+ DQ]
  else if contains_char ":"%char line then
    let line := remove_char dquote line in [DQ +:+ line +:+ DQ]
  else if String.eqb line "prettier" then [DQ +:+ "prettier" +:+ DQ]
  else [DQ +:+ line +:+ DQ].

Definition processed_lines (extends_content : string) : list string :=
  flat_map process_line (extends_lines extends_content).

(** [process_extends_content], given [match.group(1)]. *)
Definition process_extends_content (extends_content : string) : string :=
  DQ +:+ "extends" +:+ DQ +:+ ": [" +:+ NL +:+ "        "
  +:+ String.concat ("," +:+ NL +:+ "        ") (processed_lines extends_content)
  +:+ NL +:+ "    ]".

Definition preprocess_extends (content : string) : string :=
  re_sub extends_pattern (fun g => process_extends_content (group1 g)) content.

(** Line 275: a line comment up to its newline, or a block comment. *)
Definition comment_pattern : regex :=
  Alt (seqs [lit "//"; LazyStar any_char; Chr (is_char newline)])
      (seqs [lit "/*"; LazyStar any_char; lit "*/"]).

(** Lines 277-281: the production ternary. *)
Definition ternary_pattern : regex :=
  seqs [lit "process.env.NODE_ENV"; Star is_space; lit "==="; Star is_space;
        Chr is_quote; lit "production"; Chr is_quote; Star is_space;
        Chr (is_char "?"%char); Star is_space;
        Chr is_quote; lit "error"; Chr is_quote; Star is_space;
        Chr (is_char ":"%char); Star is_space;
        Chr is_quote; lit "warn"; Chr is_quote].

(** Line 284: a run of key characters followed, after optional white
    space, by a colon. *)
Definition key_pattern : regex :=
  seqs [Group (Plus is_key_char);
        Lookahead (seqs [Star is_space; Chr (is_char ":"%char)])].

(** Line 286: a comma before a closing brace or bracket. *)
Definition trailing_comma_pattern : regex :=
  seqs [Chr (is_char ","%char); Group (seqs [Star is_space; Chr is_closer])].

(** Line 287: the same with a newline in between. *)
Definition trailing_comma_newline_pattern : regex :=
  seqs [Chr (is_char ","%char);
        Group (seqs [Star is_space; Chr (is_char newline); Star is_space;
                     Chr is_closer])].

(** [clean_js_object].  No step of it raises on text, so the [except]
    branch that returns [None] is never taken. *)
Definition clean_js_object (content : string) : option string :=
  let content := re_sub comment_pattern (fun _ => EmptyString) content in
  let content := re_sub ternary_pattern (fun _ => DQ +:+ "warn" +:+ DQ) content in
  let content := replace_char squote dquote content in
  let content := re_sub key_pattern (fun g => DQ +:+ group1 g +:+ DQ) content in
  let content := preprocess_extends content in
  let content := re_sub trailing_comma_pattern group1 content in
  let content := re_sub trailing_comma_newline_pattern group1 content in
  Some (strip is_space content).

(** Lines 303-313 of [parse_eslint_config]: the text handed to
    [json.loads], or [None] for an empty file. *)
Definition cleaned_content (content : string) : option string :=
  if String.eqb (strip is_space content) EmptyString then None
  else clean_js_object (replace_str "module.exports =" EmptyString content).

(** ** A sample configuration

    An [extends] array with one entry per line, in the ways the source
    dialect writes it: the key and the entries bare, in single quotes or
    in double quotes, with or without a comma after the last entry. *)

Inductive quoting : Type := Bare | Single | Double.

Definition quoted (q : quoting) (s : string) : string :=
  match q with
  | Bare => s
  | Single => String squote s +:+ String squote EmptyString
  | Double => DQ +:+ s +:+ DQ
  end.

Definition extends_entries : list string :=
  ["eslint:recommended"; "plugin:react/recommended"; "prettier"].

Definition extends_config (key entry : quoting) (trailing_comma : bool) : string :=
  "module.exports = {" +:+ NL
  +:+ "  " +:+ quoted key "extends" +:+ ": [" +:+ NL
  +:+ "    " +:+ quoted entry "eslint:recommended" +:+ "," +:+ NL
  +:+ "    " +:+ quoted entry "plugin:react/recommended" +:+ "," +:+ NL
  +:+ "    " +:+ quoted entry "prettier"
  +:+ (if trailing_comma then "," else EmptyString) +:+ NL
  +:+ "  ]" +:+ NL
  +:+ "}" +:+ NL.

(** The normalised text: the array as [process_extends_content] lays it
    out, holding [entries] in double quotes. *)
Definition normalised_extends (entries : list string) : string :=
  "{" +:+ NL
  +:+ "  " +:+ DQ +:+ "extends" +:+ DQ +:+ ": [" +:+ NL
  +:+ "        "
  +:+ String.concat ("," +:+ NL +:+ "        ") (map (quoted Double) entries)
  +:+ NL +:+ "    ]" +:+ NL
  +:+ "}".

(** ** Sample catalog and platforms *)

Definition catalog_entry (pattern_id : string) (rest : list (string * json))
  : CatalogPattern :=
  mkCatalogPattern (Some (mkPatternDefinition (Some pattern_id) rest)) [].

(** A platform that lists one tool and refuses every other call. *)
Definition refusing_remote : Remote :=
  mkRemote (fun _ => inr [mkTool "tool-1"])
           (fun _ _ _ => inl (RequestException "503"))
           (fun _ _ _ _ => inl (RequestException "503")).

Definition sample_page (size : nat) (cursor : option string) : Page :=
  mkPage (Some (replicate size (catalog_entry "ESLint8_semi" []))) cursor.

Definition sample_pages : list Page :=
  [sample_page 100 (Some "p2"); sample_page 100 (Some "p3"); sample_page 40 None].

(** A platform that accepts every update and serves [sample_pages], the
    second page under the cursor [p2] and the third under [p3]. *)
Definition paged_remote : Remote :=
  mkRemote (fun _ => inr [])
           (fun _ _ cursor =>
              match cursor with
              | None => inr (sample_page 100 (Some "p2"))
              | Some c =>
                  if String.eqb c "p2" then inr (sample_page 100 (Some "p3"))
                  else if String.eqb c "p3" then inr (sample_page 40 None)
                  else inl (RequestException "404")
              end)
           (fun _ _ _ _ => inr tt).

(** ** The rest of [map_eslint_to_codacy_patterns], lines 27-68 *)

(** Lines 27-34: the identifiers that carry the prefix, without it, in
    catalog order. *)
Definition pattern_ids (all_codacy_patterns : list CatalogPattern) : list string :=
  flat_map (fun pattern =>
              match catalog_id pattern with
              | Some pattern_id =>
                  if String.prefix "ESLint8_" pattern_id
                  then [str_drop 8 pattern_id] else []
              | None => []
              end)
           all_codacy_patterns.

(** [name in pattern_ids]. *)
Definition in_pattern_ids (pattern_ids : list string) (name : string) : bool :=
  existsb (String.eqb name) pattern_ids.

(** [rule_name.split('/')[-1]]. *)
Definition last_segment (rule_name : string) : string :=
  List.last (split_on "/"%char rule_name) EmptyString.

(** [find_matching_pattern], lines 38-54. *)
Definition find_matching_pattern (pattern_ids : list string) (rule_name : string)
  : option string :=
  if in_pattern_ids pattern_ids rule_name then Some ("ESLint8_" +:+ rule_name)
  else if contains_char "/"%char rule_name
          && in_pattern_ids pattern_ids (last_segment rule_name)
       then Some ("ESLint8_" +:+ last_segment rule_name)
  else
    let normalized_name := slash_to_underscore rule_name in
    if in_pattern_ids pattern_ids normalized_name
    then Some ("ESLint8_" +:+ normalized_name)
    else None.

(** Lines 58-66 for one pattern of the configuration.  The outer [None]
    is the [KeyError] that the subscript of line 64 raises on a missing
    key. *)
Definition mapping_results_step (pattern_ids : list string)
    (codacy_pattern_map : gmap string PatternDefinition)
    (mapping_results : option (gmap string PatternDefinition))
    (eslint_pattern : Pattern) : option (gmap string PatternDefinition) :=
  mapping_results ← mapping_results;
  let rule_name := pat_id eslint_pattern in
  match find_matching_pattern pattern_ids rule_name with
  | Some codacy_id =>
      if String.eqb codacy_id EmptyString then Some mapping_results
      else
        definition ← codacy_pattern_map !! str_drop 8 codacy_id;
        Some (<[rule_name := definition]> mapping_results)
  | None => Some mapping_results
  end.

Definition map_eslint_to_codacy_patterns (eslint_patterns : list Pattern)
    (all_codacy_patterns : list CatalogPattern)
  : option (gmap string PatternDefinition) :=
  foldl (mapping_results_step (pattern_ids all_codacy_patterns)
                              (codacy_pattern_map all_codacy_patterns))
        (Some ∅) eslint_patterns.

(** ** The translation loop of [main], lines 473-477 *)

(** [if pattern:] holds for every pattern the translator returns, a
    dictionary with three keys at least. *)
Definition new_patterns (finite_repr : bool -> positive -> Z -> string)
    (eslint_rules : list (string * json)) : list Pattern :=
  omap (fun rule => map_eslint_rule_to_codacy finite_repr (fst rule) (snd rule))
       eslint_rules.

(** ** Vocabulary for the further properties *)

(** Every character of [s] is in the class [p]. *)
Fixpoint all_chars (p : ascii -> bool) (s : string) : bool :=
  match s with
  | EmptyString => true
  | String c r => p c && all_chars p r
  end.

(** The first and the last character of [s] are not [c]. *)
Definition starts_with_char (c : ascii) (s : string) : bool :=
  match s with
  | String d _ => Ascii.eqb d c
  | EmptyString => false
  end.

Fixpoint ends_with_char (c : ascii) (s : string) : bool :=
  match s with
  | EmptyString => false
  | String d EmptyString => Ascii.eqb d c
  | String _ r => ends_with_char c r
  end.

(** [pattern] writes [key] into the matching dictionary of
    [update_coding_standard_tool]. *)
Definition writes_mapping_key (key : string) (pattern : CatalogPattern) : bool :=
  match catalog_id pattern with
  | Some pattern_id =>
      String.eqb key (strip_eslint8 pattern_id)
      || String.eqb key (slash_to_underscore (strip_eslint8 pattern_id))
  | None => false
  end.

(** The events of one tool in [disable_all_tools]: one, two or three
    updates, with a pause between two of them. *)
Definition disable_attempts (tool_uuid : string) : list (list event) :=
  let update := EvPatch tool_uuid false [] in
  [[update];
   [update; EvSleep 2; update];
   [update; EvSleep 2; update; EvSleep 2; update]].

(** The answer of the platform to an update sent after the trace [t]. *)
Definition update_fails (remote : Remote) (t : list event) (tool_uuid : string)
    (batch : list Directive) : option exn :=
  match patch_tool remote t tool_uuid true batch with
  | inl e => Some e
  | inr _ => None
  end.

(** After the trace [t], a listing sent with [cursor] is answered with
    the pages of [pages] one after the other, each with a cursor, and the
    request that follows the last of them raises [e]. *)
Inductive served_then_failed (remote : Remote) (tool_uuid : string) (e : exn)
  : list event -> option string -> list Page -> Prop :=
| failed_now t cursor :
    get_patterns remote t tool_uuid cursor = inl e ->
    served_then_failed remote tool_uuid e t cursor []
| failed_later t cursor page next rest :
    get_patterns remote t tool_uuid cursor = inr page ->
    cursor_truthy (page_cursor page) = Some next ->
    served_then_failed remote tool_uuid e
      (t ++ [EvGetPatterns tool_uuid cursor]) (Some next) rest ->
    served_then_failed remote tool_uuid e t cursor (page :: rest).

(** A platform whose every page of patterns comes with the cursor
    [next]. *)
Definition endless_remote : Remote :=
  mkRemote (fun _ => inr [])
           (fun _ _ _ => inr (sample_page 1 (Some "next")))
           (fun _ _ _ _ => inr tt).

(** A platform that serves one page and fails on the second request. *)
Definition breaking_remote : Remote :=
  mkRemote (fun _ => inr [])
           (fun _ _ cursor =>
              match cursor with
              | None => inr (sample_page 100 (Some "p2"))
              | Some _ => inl (RequestException "500")
              end)
           (fun _ _ _ _ => inr tt).

(** A platform that accepts an update of a single directive and refuses
    any other. *)
Definition picky_remote : Remote :=
  mkRemote (fun _ => inr [])
           (fun _ _ _ => inr (sample_page 1 None))
           (fun _ _ _ patterns =>
              match patterns with
              | [_] => inr tt
              | _ => inl (RequestException "413")
              end).

(** ** The end of [parse_eslint_config], lines 315-340 *)

(** [d.get(key)] and [d[key]] on the items of a dictionary. *)
Fixpoint dict_get (key : string) (items : list (string * json)) : option json :=
  match items with
  | [] => None
  | (k, v) :: rest => if String.eqb k key then Some v else dict_get key rest
  end.

(** [v[key]] for a string [key]; [None] is the [KeyError] of a missing
    key or the [TypeError] of a value that is no dictionary. *)
Definition subscript (key : string) (v : json) : option json :=
  match v with
  | JDict items => dict_get key items
  | _ => None
  end.

(** [len(v)] is defined; on [None], a boolean and a number it raises
    [TypeError]. *)
Definition has_len (v : json) : bool :=
  match v with
  | JStr _ | JList _ | JDict _ => true
  | _ => false
  end.

(** Lines 317-327 on the value read by [json.loads].  [JNull] is Python's
    [None]: the value of a [rules] key set to [null], and what the handler
    of line 335 returns when [config.get] or [len] raises. *)
Definition rules_of_config (config : json) : json :=
  match config with
  | JDict items =>
      let rules := default (JDict []) (dict_get "rules" items) in
      if py_truthy rules then (if has_len rules then rules else JNull)
      else rules
  | _ => JNull
  end.

(** ** The entry point, lines 440-528 *)

(** [s.lower()] on characters with code point below 256. *)
Definition lower_char (c : ascii) : ascii :=
  let n := N_of_ascii c in
  if in_range 65 90 c || (in_range 192 222 c && negb (n =? 215)%N)
  then ascii_of_N (n + 32) else c.

Fixpoint lower (s : string) : string :=
  match s with
  | EmptyString => EmptyString
  | String c r => String (lower_char c) (lower r)
  end.

(** Line 516. *)
Definition output_filename (name : string) : string :=
  lower (replace_char " " "_" name) +:+ "_result.json".

(** What [main] does to the outside, in order: the creation of the
    standard, the calls about the standard that was created, its
    promotion, and the writing of the result file. *)
Inductive main_event : Type :=
| EvCreate (name : string)
| EvStandard (coding_standard_id : json) (ev : event)
| EvPromote (coding_standard_id : json)
| EvSave (output_filename : string) (patterns : list Pattern).

(** The platform seen from [main]: the answer to the creation of a
    standard is the value of [response.json()]; the calls about a
    standard and its promotion are answered by standard. *)
Record Platform : Type := mkPlatform {
  create_standard : string -> exn + json;
  standard_remote : json -> Remote;
  promote_standard : json -> list event -> exn + unit
}.

Section Main.

(** [json.loads]; [None] when it raises. *)
Variable json_loads : string -> option json.
Variable finite_repr : bool -> positive -> Z -> string.
Variable platform : Platform.

(** [parse_eslint_config] on the outcome of opening and reading the
    file. *)
Definition parse_eslint_config (file : exn + string) : json :=
  match file with
  | inl _ => JNull
  | inr content =>
      match cleaned_content content with
      | None => JNull
      | Some cleaned_content =>
          match json_loads cleaned_content with
          | None => JNull
          | Some config => rules_of_config config
          end
      end
  end.

(** Lines 485-519, once there are patterns to configure.  An exception
    that escapes a step ends the [try] block; both handlers print and
    return. *)
Definition configure_standard (fuel : nat) (name : string)
    (new_patterns : list Pattern) : outcome unit * list main_event :=
  match create_standard platform name with
  | inl _ => (Returned tt, [EvCreate name])
  | inr standard =>
      match subscript "data" standard ≫= subscript "id" with
      | None => (Returned tt, [EvCreate name])
      | Some coding_standard_id =>
          let remote := standard_remote platform coding_standard_id in
          let '(result, t) :=
            (disable_all_tools remote fuel ≫= fun _ =>
             update_coding_standard_tool remote fuel ESLINT_TOOL_UUID true
               new_patterns) [] in
          let calls := EvCreate name :: map (EvStandard coding_standard_id) t in
          match result with
          | Returned _ =>
              match promote_standard platform coding_standard_id t with
              | inl _ => (Returned tt, calls ++ [EvPromote coding_standard_id])
              | inr _ =>
                  (Returned tt,
                   calls ++ [EvPromote coding_standard_id;
                             EvSave (output_filename name) new_patterns])
              end
          | Raised _ => (Returned tt, calls)
          | OutOfFuel => (OutOfFuel, calls)
          end
      end
  end.

(** [main], given the parsed arguments, the answer of [os.path.isfile]
    and the outcome of reading the file.  On a value that is no
    dictionary, [eslint_rules.items()] raises inside the [try] block. *)
Definition main (fuel : nat) (provider name : string) (isfile : bool)
    (file : exn + string) : outcome unit * list main_event :=
  if negb (existsb (String.eqb provider) ["gh"; "gl"; "bb"]) then (Returned tt, [])
  else if negb isfile then (Returned tt, [])
  else
    match parse_eslint_config file with
    | JNull => (Returned tt, [])
    | JDict eslint_rules =>
        match new_patterns finite_repr eslint_rules with
        | [] => (Returned tt, [])
        | patterns => configure_standard fuel name patterns
        end
    | _ => (Returned tt, [])
    end.

End Main.

(** A parser that reads every text as a configuration with the single
    rule [semi]. *)
Definition sample_loads : string -> option json :=
  fun _ => Some (JDict [("rules", JDict [("semi", JStr "error")])]).

(** A platform that creates the standard 42 and promotes it; the calls
    about a standard go to [remote]. *)
Definition sample_platform (remote : Remote) : Platform :=
  mkPlatform (fun _ => inr (JDict [("data", JDict [("id", JInt 42)])]))
             (fun _ => remote)
             (fun _ _ => inr tt).

(** * Properties *)

(** ** Rule translator *)

Section TranslatorProperties.

Variable finite_repr : bool -> positive -> Z -> string.

Abbreviation translate := (map_eslint_rule_to_codacy finite_repr).

Lemma severity_of_number_enabled v :
  severity_enabled (severity_of_number v) = true.
Proof. unfold severity_of_number. by destruct (py_eq_int v 2). Qed.

Lemma translate_number rule_name v :
  is_number v = true ->
  translate rule_name v =
    if py_eq_int v 0 then None
    else Some (mkPattern rule_name true rule_name None).
Proof.
  intros Hn. unfold map_eslint_rule_to_codacy, normalise_scalar.
  rewrite Hn. destruct (py_eq_int v 0); [done|].
  unfold severity_of_number. by destruct (py_eq_int v 2).
Qed.

Lemma translate_string rule_name s :
  translate rule_name (JStr s) =
    if String.eqb s "error" || String.eqb s "warn"
    then Some (mkPattern rule_name true rule_name None)
    else None.
Proof.
  unfold map_eslint_rule_to_codacy. simpl.
  unfold severity_enabled. simpl. rewrite !orb_false_r.
  by destruct (_ || _).
Qed.

Lemma translate_list rule_name severity rest :
  translate rule_name (JList (severity :: rest)) =
    if severity_enabled (symbolic_severity severity)
    then Some (mkPattern rule_name true rule_name
                 (map_parameters finite_repr (second_or_none rest)))
    else None.
Proof. reflexivity. Qed.

Lemma translate_dict rule_name d :
  translate rule_name (JDict d) =
    Some (mkPattern rule_name true rule_name (map_parameters finite_repr (JDict d))).
Proof. reflexivity. Qed.

(** Where the translator does drop a rule that is switched off: the
    number 0 on its own, the string [off] on its own, and a list headed
    by the string [off]. *)
Lemma translate_off rule_name rest :
  translate rule_name (JInt 0) = None
  /\ translate rule_name (JFloat (S754_zero false)) = None
  /\ translate rule_name (JStr "off") = None
  /\ translate rule_name (JList (JStr "off" :: rest)) = None.
Proof. by repeat split. Qed.

Lemma symbolic_severity_number v :
  is_number v = true ->
  symbolic_severity v = JStr (if py_eq_int v 2 then "error" else "warn").
Proof. intros Hn. unfold symbolic_severity. by rewrite Hn. Qed.

Lemma map_parameters_spec parameters :
  map_parameters finite_repr parameters =
    match parameters with
    | JDict (kv :: d) => Some (map (mapped_param finite_repr) (kv :: d))
    | _ => None
    end.
Proof.
  unfold map_parameters.
  destruct parameters as [|b|n|f|s|l|d]; simpl; try done.
  - by rewrite andb_false_r.
  - by rewrite andb_false_r.
  - by rewrite andb_false_r.
  - by rewrite andb_false_r.
  - by destruct l.
  - by destruct d.
Qed.

(** C1 (where the code departs from the claim).  A rule whose value is
    a list headed by the number 0 is not dropped: whatever follows the 0,
    the translator returns an enabled pattern for the rule, with the
    parameters of the second element.  The number 0 on its own, the
    string [off] and a list headed by [off] are dropped, as
    [translate_off] shows. *)
Theorem C1_list_headed_by_zero_is_emitted rule_name rest :
  translate rule_name (JList (JInt 0 :: rest)) =
    Some (mkPattern rule_name true rule_name
            (map_parameters finite_repr (second_or_none rest)))
  /\ translate "no-console" (JList [JInt 0]) =
       Some (mkPattern "no-console" true "no-console" None).
Proof. split; reflexivity. Qed.

(** C2 (amended).  A severity that is a string other than [error] and
    [warn], alone or heading a list, yields no pattern, and so does a
    list headed by a value that is neither a number nor a string.  A
    numeric severity is turned into a symbolic one, 2 into [error] and
    any other number into [warn] (so 1 gives [warn]); a non-zero number
    therefore yields a pattern, alone or heading a list. *)
Theorem C2_severity_mapping rule_name s v w rest
    (Hs_error : s <> "error") (Hs_warn : s <> "warn")
    (Hv : is_number v = true) (Hv0 : py_eq_int v 0 = false)
    (Hw_num : is_number w = false) (Hw_str : is_str w = false) :
  translate rule_name (JStr s) = None
  /\ translate rule_name (JList (JStr s :: rest)) = None
  /\ translate rule_name (JList (w :: rest)) = None
  /\ symbolic_severity v = JStr (if py_eq_int v 2 then "error" else "warn")
  /\ symbolic_severity (JInt 1) = JStr "warn"
  /\ symbolic_severity (JInt 2) = JStr "error"
  /\ translate rule_name v = Some (mkPattern rule_name true rule_name None)
  /\ translate rule_name (JList (v :: rest)) =
       Some (mkPattern rule_name true rule_name
               (map_parameters finite_repr (second_or_none rest))).
Proof.
  apply String.eqb_neq in Hs_error, Hs_warn.
  repeat split.
  - by rewrite translate_string, Hs_error, Hs_warn.
  - rewrite translate_list. unfold symbolic_severity, severity_enabled. simpl.
    by rewrite Hs_error, Hs_warn.
  - rewrite translate_list. unfold symbolic_severity. rewrite Hw_num.
    by destruct w.
  - by apply symbolic_severity_number.
  - by rewrite translate_number, Hv0.
  - rewrite translate_list, symbolic_severity_number by done.
    by destruct (py_eq_int v 2).
Qed.

(** C10.  When a rule is translated, the pattern has a parameter list
    exactly when the payload of the rule (the second element of a list,
    or the whole value when the rule is a mapping) is a non-empty
    mapping, and the list then has one entry per key, in order.  A
    payload that is a scalar, a list or an empty mapping leaves the
    pattern without the field. *)
Theorem C10_parameters_only_for_nonempty_mapping rule_name rule_config p
    (Hp : translate rule_name rule_config = Some p) :
  exists payload,
    rule_payload rule_config = Some payload
    /\ (forall severity x rest,
          rule_config = JList (severity :: x :: rest) -> payload = x)
    /\ (forall d, rule_config = JDict d -> payload = rule_config)
    /\ pat_parameters p =
         match payload with
         | JDict (kv :: d) => Some (map (mapped_param finite_repr) (kv :: d))
         | _ => None
         end
    /\ (is_dict payload = false -> pat_parameters p = None)
    /\ (payload = JDict [] -> pat_parameters p = None)
    /\ (is_Some (pat_parameters p) <-> exists kv d, payload = JDict (kv :: d)).
Proof.
  unfold map_eslint_rule_to_codacy, rule_payload in *.
  destruct (normalise_scalar rule_config) as [rc|] eqn:Hrc; [|done].
  simpl in *.
  destruct (split_config rc) as [[severity payload]|] eqn:Hsplit; [|done].
  simpl in *.
  destruct (severity_enabled _); [|done].
  injection Hp as <-. simpl. rewrite map_parameters_spec.
  exists payload. split; [done|].
  assert (Hlist : forall sev x rest,
             rule_config = JList (sev :: x :: rest) -> payload = x).
  { intros sev x rest ->. cbv in Hrc. simplify_eq. cbv in Hsplit. by simplify_eq. }
  assert (Hdict : forall d, rule_config = JDict d -> payload = rule_config).
  { intros d ->. cbv in Hrc. simplify_eq. cbv in Hsplit. by simplify_eq. }
  repeat split; try done.
  - intros Hd. by destruct payload.
  - by intros ->.
  - intros [l Hl]. destruct payload as [| | | | | |[|kv d]]; try done. eauto.
  - intros (kv & d & ->). eauto.
Qed.

End TranslatorProperties.

(** The translator on a configuration that holds no float. *)
Lemma C2_severity_mapping_witness :
  map_eslint_rule_to_codacy no_floats "semi" (JStr "off") = None
  /\ map_eslint_rule_to_codacy no_floats "semi" (JInt 3) =
       Some (mkPattern "semi" true "semi" None).
Proof.
  pose proof (C2_severity_mapping no_floats "semi" "off" (JInt 3) JNull []) as H.
  destruct H as (H1 & _ & _ & _ & _ & _ & H2 & _); try done.
Defined.

(** C2 as stated fails: 3 is none of [error], [warn], 1 and 2 (the
    membership test of line 365 rejects it), and yet the rule is
    translated. *)
Lemma C2_counterexample :
  severity_enabled (JInt 3) = false
  /\ map_eslint_rule_to_codacy no_floats "semi" (JInt 3) =
       Some (mkPattern "semi" true "semi" None).
Proof. split; reflexivity. Qed.

Lemma C10_parameters_witness :
  exists payload,
    rule_payload (JList [JStr "error"; JStr "always"]) = Some payload
    /\ pat_parameters (mkPattern "semi" true "semi" None) = None.
Proof.
  destruct (C10_parameters_only_for_nonempty_mapping no_floats "semi"
              (JList [JStr "error"; JStr "always"])
              (mkPattern "semi" true "semi" None) eq_refl)
    as (payload & Hpayload & _ & _ & _ & Hnone & _).
  exists payload. split; [exact Hpayload|].
  apply Hnone. vm_compute in Hpayload. by simplify_eq.
Defined.

(** ** Pattern catalog reconciler *)

Section ReconcilerProperties.

Implicit Types (all_patterns : list CatalogPattern) (patterns : list Pattern).
Implicit Types (pattern_mapping : gmap string string).

Lemma build_pattern_mapping_snoc all_patterns pattern :
  build_pattern_mapping (all_patterns ++ [pattern]) =
    pattern_mapping_step (build_pattern_mapping all_patterns) pattern.
Proof. unfold build_pattern_mapping. by rewrite foldl_app. Qed.

(** Every entry of the matching dictionary comes from a catalog pattern:
    the value is its identifier, the key its stripped or normalised
    identifier. *)
Lemma pattern_mapping_origin all_patterns key pattern_id :
  build_pattern_mapping all_patterns !! key = Some pattern_id ->
  exists pattern,
    pattern ∈ all_patterns
    /\ catalog_id pattern = Some pattern_id
    /\ (key = strip_eslint8 pattern_id
        \/ key = slash_to_underscore (strip_eslint8 pattern_id)).
Proof.
  induction all_patterns as [|pattern all_patterns IH] using rev_ind.
  - unfold build_pattern_mapping. simpl. by rewrite lookup_empty.
  - rewrite build_pattern_mapping_snoc. unfold pattern_mapping_step.
    destruct (catalog_id pattern) as [id|] eqn:Hid.
    + intros Hlook.
      destruct (decide (slash_to_underscore (strip_eslint8 id) = key)) as [<-|Hn].
      { rewrite lookup_insert_eq in Hlook. simplify_eq.
        exists pattern. rewrite elem_of_app, list_elem_of_singleton. auto. }
      rewrite lookup_insert_ne in Hlook by done.
      destruct (decide (strip_eslint8 id = key)) as [<-|Hb].
      { rewrite lookup_insert_eq in Hlook. simplify_eq.
        exists pattern. rewrite elem_of_app, list_elem_of_singleton. auto. }
      rewrite lookup_insert_ne in Hlook by done.
      destruct (IH Hlook) as (cp & Hin & Hcp & Hkey).
      exists cp. rewrite elem_of_app. auto.
    + intros Hlook. destruct (IH Hlook) as (cp & Hin & Hcp & Hkey).
      exists cp. rewrite elem_of_app. auto.
Qed.

Lemma pattern_mapping_step_keeps pattern_mapping pattern key :
  is_Some (pattern_mapping !! key) ->
  is_Some (pattern_mapping_step pattern_mapping pattern !! key).
Proof.
  intros Hk. unfold pattern_mapping_step.
  destruct (catalog_id pattern); [|done].
  rewrite !lookup_insert_is_Some'. auto.
Qed.

(** The stripped and the normalised identifier of every catalog pattern
    are keys of the matching dictionary. *)
Lemma pattern_mapping_keys all_patterns pattern pattern_id :
  pattern ∈ all_patterns ->
  catalog_id pattern = Some pattern_id ->
  is_Some (build_pattern_mapping all_patterns !! strip_eslint8 pattern_id)
  /\ is_Some (build_pattern_mapping all_patterns
               !! slash_to_underscore (strip_eslint8 pattern_id)).
Proof.
  induction all_patterns as [|last all_patterns IH] using rev_ind.
  - by intros ?%elem_of_nil.
  - intros [Hin | ->%list_elem_of_singleton]%elem_of_app Hid;
      rewrite build_pattern_mapping_snoc.
    + destruct (IH Hin Hid). split; by apply pattern_mapping_step_keeps.
    + unfold pattern_mapping_step. rewrite Hid.
      rewrite !lookup_insert_is_Some'. auto.
Qed.

Lemma find_codacy_id_union pattern_mapping rule_name :
  find_codacy_id pattern_mapping rule_name =
    (pattern_mapping !! rule_name)
    ∪ (pattern_mapping !! slash_to_underscore rule_name).
Proof.
  unfold find_codacy_id.
  by destruct (pattern_mapping !! rule_name),
              (pattern_mapping !! slash_to_underscore rule_name).
Qed.

Lemma any_enabled_spec (enabled_patterns : list Directive) pattern_id :
  any_enabled enabled_patterns pattern_id = true
  <-> pattern_id ∈ dir_id <$> enabled_patterns.
Proof.
  unfold any_enabled. rewrite existsb_exists, list_elem_of_fmap.
  split.
  - intros (ep & Hin%list_elem_of_In & Heq%String.eqb_eq). eauto.
  - intros (ep & -> & Hin%list_elem_of_In). exists ep.
    split; [done|]. apply String.eqb_refl.
Qed.

Lemma find_codacy_id_Some pattern_mapping rule_name codacy_id :
  find_codacy_id pattern_mapping rule_name = Some codacy_id ->
  exists key,
    (key = rule_name \/ key = slash_to_underscore rule_name)
    /\ pattern_mapping !! key = Some codacy_id.
Proof.
  unfold find_codacy_id.
  destruct (pattern_mapping !! rule_name) eqn:Hdirect; intros Hfind.
  - exists rule_name. simplify_eq. auto.
  - exists (slash_to_underscore rule_name). auto.
Qed.

Lemma enabled_patterns_origin pattern_mapping patterns d :
  d ∈ enabled_patterns_of pattern_mapping patterns ->
  exists pattern,
    pattern ∈ patterns
    /\ find_codacy_id pattern_mapping (pat_id pattern) = Some (dir_id d)
    /\ d = mkDirective (dir_id d) true (default [] (pat_parameters pattern)).
Proof.
  unfold enabled_patterns_of.
  rewrite list_elem_of_In, in_flat_map.
  intros (pattern & Hin%list_elem_of_In & Hd). exists pattern.
  split; [done|]. unfold enable_directive in Hd.
  destruct (find_codacy_id _ _) as [codacy_id|]; [|done].
  destruct (String.eqb codacy_id EmptyString); [done|].
  destruct Hd as [<-|[]]. done.
Qed.

Lemma disabled_patterns_filter (enabled_patterns : list Directive) all_patterns :
  disabled_patterns_of enabled_patterns all_patterns =
    (fun pattern_id => mkDirective pattern_id false [])
      <$> filter (fun pattern_id => pattern_id ∉ dir_id <$> enabled_patterns)
                 (omap catalog_id all_patterns).
Proof.
  unfold disabled_patterns_of.
  induction all_patterns as [|pattern all_patterns IH]; [done|].
  simpl. unfold disable_directive at 1.
  destruct (catalog_id pattern) as [pattern_id|]; [|done].
  rewrite filter_cons.
  destruct (any_enabled enabled_patterns pattern_id) eqn:Hany.
  - apply any_enabled_spec in Hany. by rewrite decide_False by auto.
  - rewrite decide_True; [simpl; by f_equal|].
    rewrite <- any_enabled_spec. by rewrite Hany.
Qed.

(** C3.  An enable-directive is only ever emitted for a rule of the
    configuration whose identifier, as written or with slashes turned
    into underscores, is the stripped or normalised identifier of a
    catalog pattern; the directive carries that catalog pattern's
    identifier and the parameters of the rule.  The disable-directives
    are, in catalog order, one per catalog pattern whose identifier is
    carried by no enable-directive, each with an empty parameter list. *)
Theorem C3_reconcile_enables_matches_disables_rest all_patterns patterns :
  let enabled_patterns := (reconcile all_patterns patterns).1 in
  let disabled_patterns := (reconcile all_patterns patterns).2 in
  (forall d, d ∈ enabled_patterns ->
     dir_enabled d = true
     /\ exists pattern catalog_pattern key,
          pattern ∈ patterns
          /\ catalog_pattern ∈ all_patterns
          /\ catalog_id catalog_pattern = Some (dir_id d)
          /\ (key = pat_id pattern \/ key = slash_to_underscore (pat_id pattern))
          /\ (key = strip_eslint8 (dir_id d)
              \/ key = slash_to_underscore (strip_eslint8 (dir_id d)))
          /\ dir_parameters d = default [] (pat_parameters pattern))
  /\ disabled_patterns =
       (fun pattern_id => mkDirective pattern_id false [])
         <$> filter (fun pattern_id => pattern_id ∉ dir_id <$> enabled_patterns)
                    (omap catalog_id all_patterns)
  /\ (forall d, d ∈ disabled_patterns <->
        exists catalog_pattern pattern_id,
          catalog_pattern ∈ all_patterns
          /\ catalog_id catalog_pattern = Some pattern_id
          /\ (pattern_id ∉ dir_id <$> enabled_patterns)
          /\ d = mkDirective pattern_id false []).
Proof.
  unfold reconcile. simpl. split; [|split].
  - intros d (pattern & Hin & Hfind & Hd)%enabled_patterns_origin.
    split; [by rewrite Hd|].
    apply find_codacy_id_Some in Hfind as (key & Hkey & Hlook).
    apply pattern_mapping_origin in Hlook as (cp & Hcp & Hid & Hmatch).
    exists pattern, cp, key. repeat split; try done. by rewrite Hd.
  - apply disabled_patterns_filter.
  - intros d. rewrite disabled_patterns_filter, list_elem_of_fmap.
    setoid_rewrite list_elem_of_filter. setoid_rewrite list_elem_of_omap.
    split.
    + intros (pattern_id & -> & Hnot & cp & Hin & Hid). eauto 10.
    + intros (cp & pattern_id & Hin & Hid & Hnot & ->). eauto 10.
Qed.

(** C4.  The reconciler looks a rule up under its identifier and,
    failing that, under the identifier with slashes turned into
    underscores; the first hit is the result.  With the catalog entry
    [ESLint8_no-unused-vars], the rule [no-unused-vars] is found under
    its own name and enabled as [ESLint8_no-unused-vars]; with the
    catalog entry [ESLint8_react_jsx-uses-vars], the rule
    [react/jsx-uses-vars] is not a key and is found under
    [react_jsx-uses-vars]. *)
Theorem C4_direct_then_normalised_lookup :
  (forall pattern_mapping rule_name,
     find_codacy_id pattern_mapping rule_name =
       (pattern_mapping !! rule_name)
       ∪ (pattern_mapping !! slash_to_underscore rule_name))
  /\ (forall rest other parameters,
        let catalog :=
          [mkCatalogPattern
             (Some (mkPatternDefinition (Some "ESLint8_no-unused-vars") rest)) other] in
        build_pattern_mapping catalog !! "no-unused-vars"
          = Some "ESLint8_no-unused-vars"
        /\ reconcile catalog
             [mkPattern "no-unused-vars" true "no-unused-vars" parameters]
           = ([mkDirective "ESLint8_no-unused-vars" true (default [] parameters)],
              []))
  /\ (forall rest other parameters,
        let catalog :=
          [mkCatalogPattern
             (Some (mkPatternDefinition (Some "ESLint8_react_jsx-uses-vars") rest))
             other] in
        build_pattern_mapping catalog !! "react/jsx-uses-vars" = None
        /\ build_pattern_mapping catalog !! "react_jsx-uses-vars"
           = Some "ESLint8_react_jsx-uses-vars"
        /\ reconcile catalog
             [mkPattern "react/jsx-uses-vars" true "react/jsx-uses-vars" parameters]
           = ([mkDirective "ESLint8_react_jsx-uses-vars" true
                 (default [] parameters)],
              [])).
Proof.
  split; [apply find_codacy_id_union|].
  split; intros rest other parameters; repeat split; vm_compute; reflexivity.
Qed.

(** *** The dictionary of [map_eslint_to_codacy_patterns] *)

Lemma codacy_pattern_map_step_lookup acc pattern definition pattern_id key :
  patternDefinition pattern = Some definition ->
  def_id definition = Some pattern_id ->
  codacy_pattern_map_step acc pattern !! key =
    if writes_key pattern_id key then Some definition else acc !! key.
Proof.
  intros Hdef Hid. unfold codacy_pattern_map_step, writes_key, strip_eslint8.
  rewrite Hdef, Hid.
  destruct (String.prefix "ESLint8_" pattern_id).
  - destruct (String.eqb_spec key (str_drop 8 pattern_id)) as [->|Hstripped].
    + by rewrite lookup_insert_eq, orb_true_r.
    + rewrite lookup_insert_ne, orb_false_r by done.
      destruct (String.eqb_spec key pattern_id) as [->|Hraw].
      * by rewrite lookup_insert_eq.
      * by rewrite lookup_insert_ne.
  - rewrite orb_diag.
    destruct (String.eqb_spec key pattern_id) as [->|Hraw].
    + by rewrite lookup_insert_eq.
    + by rewrite lookup_insert_ne.
Qed.

Lemma codacy_pattern_map_step_skip acc pattern :
  catalog_id pattern = None -> codacy_pattern_map_step acc pattern = acc.
Proof.
  unfold catalog_id, codacy_pattern_map_step.
  destruct (patternDefinition pattern) as [definition|]; [|done].
  simpl. by intros ->.
Qed.

Lemma codacy_pattern_map_step_keeps acc pattern key :
  is_Some (acc !! key) -> is_Some (codacy_pattern_map_step acc pattern !! key).
Proof.
  intros Hkey. destruct (patternDefinition pattern) as [definition|] eqn:Hdef.
  - destruct (def_id definition) as [pattern_id|] eqn:Hid.
    + rewrite (codacy_pattern_map_step_lookup _ _ _ _ _ Hdef Hid).
      by destruct (writes_key pattern_id key).
    + rewrite codacy_pattern_map_step_skip; [done|].
      unfold catalog_id. by rewrite Hdef.
  - rewrite codacy_pattern_map_step_skip; [done|].
    unfold catalog_id. by rewrite Hdef.
Qed.

Lemma foldl_codacy_pattern_map_keeps acc (later : list CatalogPattern) key :
  is_Some (acc !! key) ->
  is_Some (foldl codacy_pattern_map_step acc later !! key).
Proof.
  revert acc. induction later as [|pattern later IH]; intros acc Hkey; [done|].
  simpl. by apply IH, codacy_pattern_map_step_keeps.
Qed.

Lemma foldl_codacy_pattern_map_leaves acc (later : list CatalogPattern)
    pattern_id key :
  forallb (leaves_keys_of pattern_id) later = true ->
  key = pattern_id \/ key = strip_eslint8 pattern_id ->
  foldl codacy_pattern_map_step acc later !! key = acc !! key.
Proof.
  intros Hleave Hkey. revert acc Hleave.
  induction later as [|pattern later IH]; intros acc Hleave; [done|].
  simpl in *. apply andb_true_iff in Hleave as [Hpattern Hlater].
  rewrite IH by done. unfold leaves_keys_of in Hpattern.
  destruct (catalog_id pattern) as [other|] eqn:Hother.
  - unfold catalog_id in Hother.
    destruct (patternDefinition pattern) as [definition|] eqn:Hdef; [|done].
    simpl in Hother.
    rewrite (codacy_pattern_map_step_lookup _ _ _ _ _ Hdef Hother).
    apply negb_true_iff, orb_false_iff in Hpattern as [Hraw Hstripped].
    destruct Hkey as [-> | ->]; by rewrite ?Hraw, ?Hstripped.
  - by rewrite codacy_pattern_map_step_skip.
Qed.

(** C5 (amended).  For a catalog pattern with an identifier:
    the matching dictionary built before reconciliation has the
    prefix-stripped identifier and its underscore-normalised form as
    keys, each mapped to a catalog identifier that strips or normalises
    to the key, and has the raw identifier as a key only when the raw
    identifier is itself such a stripped or normalised form; the
    dictionary of [map_eslint_to_codacy_patterns] has both the raw and
    the prefix-stripped identifier as keys, and both map to the
    definition of the pattern when no later catalog pattern writes
    either key. *)
Theorem C5_matching_dictionary_keys before pattern after definition pattern_id
    (Hdef : patternDefinition pattern = Some definition)
    (Hid : def_id definition = Some pattern_id) :
  let all_patterns := before ++ pattern :: after in
  (exists raw,
     build_pattern_mapping all_patterns !! strip_eslint8 pattern_id = Some raw
     /\ (strip_eslint8 pattern_id = strip_eslint8 raw
         \/ strip_eslint8 pattern_id = slash_to_underscore (strip_eslint8 raw)))
  /\ (exists raw,
        build_pattern_mapping all_patterns
          !! slash_to_underscore (strip_eslint8 pattern_id) = Some raw
        /\ (slash_to_underscore (strip_eslint8 pattern_id) = strip_eslint8 raw
            \/ slash_to_underscore (strip_eslint8 pattern_id)
               = slash_to_underscore (strip_eslint8 raw)))
  /\ (forall raw,
        build_pattern_mapping all_patterns !! pattern_id = Some raw ->
        pattern_id = strip_eslint8 raw
        \/ pattern_id = slash_to_underscore (strip_eslint8 raw))
  /\ is_Some (codacy_pattern_map all_patterns !! pattern_id)
  /\ is_Some (codacy_pattern_map all_patterns !! strip_eslint8 pattern_id)
  /\ (forallb (leaves_keys_of pattern_id) after = true ->
      codacy_pattern_map all_patterns !! pattern_id = Some definition
      /\ codacy_pattern_map all_patterns !! strip_eslint8 pattern_id
         = Some definition).
Proof.
  intros all_patterns.
  assert (Hin : pattern ∈ all_patterns).
  { apply elem_of_app. right. by left. }
  assert (Hcid : catalog_id pattern = Some pattern_id).
  { unfold catalog_id. by rewrite Hdef. }
  destruct (pattern_mapping_keys _ _ _ Hin Hcid) as [[raw1 Hraw1] [raw2 Hraw2]].
  assert (Hwritten : forall key,
             key = pattern_id \/ key = strip_eslint8 pattern_id ->
             codacy_pattern_map_step
               (foldl codacy_pattern_map_step ∅ before) pattern !! key
             = Some definition).
  { intros key Hkey.
    rewrite (codacy_pattern_map_step_lookup _ _ _ _ _ Hdef Hid).
    unfold writes_key.
    destruct Hkey as [-> | ->]; by rewrite String.eqb_refl, ?orb_true_r. }
  unfold codacy_pattern_map, all_patterns. rewrite foldl_app. simpl.
  repeat split.
  - exists raw1. split; [done|].
    by apply pattern_mapping_origin in Hraw1 as (_ & _ & _ & ?).
  - exists raw2. split; [done|].
    by apply pattern_mapping_origin in Hraw2 as (_ & _ & _ & ?).
  - by intros raw (_ & _ & _ & ?)%pattern_mapping_origin.
  - apply foldl_codacy_pattern_map_keeps. rewrite Hwritten; eauto.
  - apply foldl_codacy_pattern_map_keeps. rewrite Hwritten; eauto.
  - rewrite (foldl_codacy_pattern_map_leaves _ _ pattern_id) by auto.
    apply Hwritten. auto.
  - rewrite (foldl_codacy_pattern_map_leaves _ _ pattern_id) by auto.
    apply Hwritten. auto.
Qed.

End ReconcilerProperties.

(** ** Remote calls *)

Section RemoteProperties.

Variable remote : Remote.

(** *** Pattern listing *)

Lemma list_tool_patterns_loop_served tool_uuid pages :
  forall fuel all_patterns cursor t,
    served remote tool_uuid t (cursor_truthy cursor) pages ->
    (length pages <= fuel)%nat ->
    list_tool_patterns_loop remote fuel tool_uuid all_patterns cursor t =
      (Returned (all_patterns ++ pages_data pages),
       t ++ listing_calls tool_uuid (cursor_truthy cursor) pages).
Proof.
  induction pages as [|page rest IH]; intros fuel all_patterns cursor t Hserved Hfuel.
  - inversion Hserved.
  - destruct fuel as [|fuel]; [simpl in Hfuel; lia|].
    simpl in Hfuel. apply le_S_n in Hfuel.
    simpl. unfold mbind, M_bind, call.
    inversion Hserved as [t' c p Hget Hlast | t' c p next rest' Hget Hnext Hrest];
      subst; rewrite Hget.
    + rewrite Hlast. simpl. by rewrite app_nil_r.
    + rewrite Hnext.
      assert (Hcur : cursor_truthy (page_cursor page) = Some next) by done.
      rewrite <- Hcur in Hrest.
      rewrite (IH fuel _ _ _ Hrest Hfuel), Hcur.
      simpl. by rewrite <- !app_assoc.
Qed.

Lemma length_listing_calls tool_uuid cursor pages :
  length (listing_calls tool_uuid cursor pages) = length pages.
Proof.
  revert cursor. induction pages as [|page rest IH]; intros cursor; [done|].
  simpl. by rewrite IH.
Qed.

Lemma length_pages_data pages :
  length (pages_data pages) =
    sum_list (map (fun page => length (default [] (page_data page))) pages).
Proof.
  unfold pages_data. induction pages as [|page rest IH]; [done|].
  simpl. by rewrite length_app, IH.
Qed.

(** C8.  When the platform serves a catalog in pages linked by cursors,
    the listing, given at least one round per page, returns the patterns
    of all the pages in order and issues one call per page, the first
    without a cursor and each next one with the cursor just returned.
    For three pages of 100, 100 and 40 patterns that is 240 patterns and
    3 calls. *)
Theorem C8_listing_drains_all_pages tool_uuid pages fuel t
    (Hserved : served remote tool_uuid t None pages)
    (Hfuel : (length pages <= fuel)%nat) :
  list_tool_patterns remote fuel tool_uuid t =
    (Returned (pages_data pages), t ++ listing_calls tool_uuid None pages)
  /\ length (listing_calls tool_uuid None pages) = length pages
  /\ (map (fun page => length (default [] (page_data page))) pages
        = [100; 100; 40]%nat ->
      length (pages_data pages) = 240%nat
      /\ length (listing_calls tool_uuid None pages) = 3%nat).
Proof.
  split; [|split].
  - unfold list_tool_patterns.
    by rewrite (list_tool_patterns_loop_served tool_uuid pages fuel [] None t).
  - apply length_listing_calls.
  - intros Hsizes. rewrite length_pages_data, length_listing_calls, Hsizes.
    split; [done|]. apply (f_equal length) in Hsizes.
    by rewrite length_map in Hsizes.
Qed.

(** *** Disabling tools *)

Lemma update_coding_standard_tool_disable fuel tool_uuid patterns :
  update_coding_standard_tool remote fuel tool_uuid false patterns =
    patch remote tool_uuid false [].
Proof. reflexivity. Qed.

Lemma disable_with_retries_returns fuel retries tool_uuid t :
  (disable_with_retries remote fuel retries tool_uuid t).1 = Returned tt.
Proof.
  revert t. induction retries as [|retries IH]; intros t; [reflexivity|].
  simpl. rewrite update_coding_standard_tool_disable.
  unfold mbind, M_bind, catch, patch, call.
  destruct (patch_tool remote t tool_uuid false []) as [e|[]]; [|reflexivity].
  destruct retries as [|retries]; [reflexivity|].
  unfold sleep. apply IH.
Qed.

Lemma disable_each_returns fuel tools t :
  (disable_each remote fuel tools t).1 = Returned tt.
Proof.
  revert t. induction tools as [|tool tools IH]; intros t; [reflexivity|].
  cbn [disable_each]. unfold mbind, M_bind.
  pose proof (disable_with_retries_returns fuel 3 (uuid tool) t) as Hret.
  destruct (disable_with_retries remote fuel 3 (uuid tool) t) as [r t'].
  simpl in Hret. subst r. apply IH.
Qed.

(** C6 (amended).  Disabling a tool sends the update with
    [enabled=false] and no pattern at most 3 times, with a pause of 2
    seconds after each of the first two failures, and stops at the first
    success.  After the third failure the loop gives the tool up and
    returns normally: no failure of an update reaches the caller of
    [disable_all_tools], which raises only when the listing of the tools
    does. *)
Theorem C6_disable_retries_then_gives_up fuel tool_uuid t :
  let update := EvPatch tool_uuid false [] in
  let failed t' :=
    match patch_tool remote t' tool_uuid false [] with
    | inl _ => true
    | inr _ => false
    end in
  disable_with_retries remote fuel 3 tool_uuid t =
    (Returned tt,
     t ++ (if failed t then
             if failed (t ++ [update; EvSleep 2]) then
               [update; EvSleep 2; update; EvSleep 2; update]
             else [update; EvSleep 2; update]
           else [update]))
  /\ match get_tools remote t with
     | inl e => disable_all_tools remote fuel t = (Raised e, t ++ [EvGetTools])
     | inr _ => (disable_all_tools remote fuel t).1 = Returned tt
     end.
Proof.
  split.
  - simpl. rewrite !update_coding_standard_tool_disable.
    unfold mbind, M_bind, catch, patch, call, sleep, mret, M_ret.
    destruct (patch_tool remote t tool_uuid false []) as [e1|[]]; [|done].
    rewrite <- !app_assoc. simpl.
    destruct (patch_tool remote (t ++ [EvPatch tool_uuid false []; EvSleep 2])
                tool_uuid false []) as [e2|[]]; [|done].
    destruct (patch_tool remote _ tool_uuid false []) as [e3|[]];
      by rewrite <- !app_assoc.
  - unfold disable_all_tools, list_coding_standard_tools, mbind, M_bind, call.
    destruct (get_tools remote t) as [e|tools]; [done|].
    apply disable_each_returns.
Qed.

(** *** Batches *)

Lemma concat_chunks {A : Type} (size : nat) :
  forall (count : nat) (l : list A),
    (length l <= count * size)%nat ->
    concat (map (fun k => take size (drop (k * size) l)) (seq 0 count)) = l.
Proof.
  induction count as [|count IH]; intros l Hlen.
  - simpl in *. destruct l; [done|simpl in Hlen; lia].
  - cbn [seq map concat]. rewrite <- seq_shift, map_map.
    etrans; [|apply (take_drop size l)]. f_equal.
    rewrite <- (IH (drop size l)) by (rewrite length_drop; lia).
    f_equal. apply map_ext. intros k. rewrite drop_drop.
    repeat f_equal; lia.
Qed.

(** For a positive size the batches are the consecutive slices of that
    size, and there are enough of them to cover the list. *)
Lemma batches_positive patterns batch_size :
  0 < batch_size ->
  exists count : nat,
    (length patterns <= count * Z.to_nat batch_size)%nat
    /\ batches patterns batch_size =
         Some (map (fun k => take (Z.to_nat batch_size)
                               (drop (k * Z.to_nat batch_size) patterns))
                   (seq 0 count)).
Proof.
  intros Hpos. unfold batches, py_range.
  destruct (Z.eqb_spec batch_size 0) as [|_]; [lia|].
  destruct (Z.ltb_spec 0 batch_size) as [_|]; [|lia].
  set (len := Z.of_nat (length patterns)).
  set (n := if 0 <? len then (len - 0 - 1) / batch_size + 1 else 0).
  exists (Z.to_nat n). split.
  - assert (len <= n * batch_size) as Hcover.
    { unfold n. destruct (Z.ltb_spec 0 len) as [Hlen|Hlen]; [|lia].
      pose proof (Z.mul_succ_div_gt (len - 0 - 1) batch_size Hpos). lia. }
    assert (0 <= n) as Hn.
    { unfold n. destruct (Z.ltb_spec 0 len) as [Hlen|Hlen]; [|lia].
      pose proof (Z.div_pos (len - 0 - 1) batch_size). lia. }
    apply Nat2Z.inj_le. rewrite Nat2Z.inj_mul, !Z2Nat.id by lia. done.
  - simpl. f_equal. rewrite map_map. apply map_ext. intros k.
    unfold py_slice. f_equal; [f_equal; lia|].
    f_equal. rewrite Z.add_0_l, Z2Nat.inj_mul, Nat2Z.id by lia. done.
Qed.

Lemma patch_with_retries_events retries tool_uuid batch t :
  exists events,
    (patch_with_retries remote retries tool_uuid batch t).2 = t ++ events
    /\ Forall (fun ev => ev = EvSleep 2 \/ ev = EvPatch tool_uuid true batch) events.
Proof.
  revert t. induction retries as [|retries IH]; intros t.
  - exists []. by rewrite app_nil_r.
  - simpl. unfold mbind, M_bind, catch, patch, call.
    destruct (patch_tool remote t tool_uuid true batch) as [e|[]].
    + destruct (is_request_exception e), retries as [|retries];
        try (exists [EvPatch tool_uuid true batch]; split; [done|];
             constructor; [by right|constructor]).
      unfold sleep.
      destruct (IH ((t ++ [EvPatch tool_uuid true batch]) ++ [EvSleep 2]))
        as (events & -> & Hevents).
      exists (EvPatch tool_uuid true batch :: EvSleep 2 :: events).
      rewrite <- !app_assoc. split; [done|].
      constructor; [by right|]. constructor; [by left|done].
    + exists [EvPatch tool_uuid true batch]. split; [done|].
      constructor; [by right|constructor].
Qed.

Lemma update_batches_events tool_uuid bs t :
  exists events,
    (update_batches remote tool_uuid bs t).2 = t ++ events
    /\ Forall (fun ev => ev = EvSleep 2
                        \/ exists batch, batch ∈ bs /\ ev = EvPatch tool_uuid true batch)
              events.
Proof.
  revert t. induction bs as [|batch bs IH]; intros t.
  - exists []. by rewrite app_nil_r.
  - cbn [update_batches]. unfold mbind, M_bind.
    destruct (patch_with_retries_events 3 tool_uuid batch t)
      as (first & Hfirst & Hfirst_events).
    destruct (patch_with_retries remote 3 tool_uuid batch t) as [r t1].
    simpl in Hfirst. subst t1.
    assert (Forall (fun ev => ev = EvSleep 2
                      \/ exists b, b ∈ batch :: bs /\ ev = EvPatch tool_uuid true b)
              first) as Hfirst'.
    { eapply Forall_impl; [exact Hfirst_events|].
      intros ev [->| ->]; [by left|right]. exists batch. split; [by left|done]. }
    destruct r as [[]|e|].
    + destruct (IH (t ++ first)) as (events & -> & Hevents).
      exists (first ++ events). rewrite app_assoc. split; [done|].
      apply Forall_app. split; [done|].
      eapply Forall_impl; [exact Hevents|].
      intros ev [->|(b & Hb & ->)]; [by left|right].
      exists b. split; [by right|done].
    + by exists first.
    + by exists first.
Qed.

Lemma update_batches_success tool_uuid bs t :
  (forall t' batch, patch_tool remote t' tool_uuid true batch = inr tt) ->
  update_batches remote tool_uuid bs t =
    (Returned tt, t ++ map (EvPatch tool_uuid true) bs).
Proof.
  intros Hok. revert t. induction bs as [|batch bs IH]; intros t.
  - simpl. by rewrite app_nil_r.
  - cbn [update_batches map]. unfold mbind, M_bind. simpl.
    unfold mbind, M_bind, catch, patch, call. rewrite Hok.
    unfold mret, M_ret. rewrite IH. by rewrite <- app_assoc.
Qed.

(** C7.  Whatever the list of directives and the batch size, the
    batches are consecutive pieces of the list, none longer than the
    batch size, and together they are the whole list when the size is
    positive; every update that [batch_update_patterns] sends carries one
    of them.  (A size of zero makes [range] raise before any call.)
    With 2500 directives and a size of 1000 there are three batches, of
    1000, 1000 and 500 directives, and when no update fails exactly
    these three updates are sent, in that order. *)
Theorem C7_batches_bounded_consecutive tool_uuid patterns batch_size t :
  match batches patterns batch_size with
  | Some bs =>
      Forall (fun batch => Z.of_nat (length batch) <= batch_size) bs
      /\ concat bs = (if 0 <? batch_size then patterns else [])
      /\ exists events,
           (batch_update_patterns remote tool_uuid patterns batch_size t).2
             = t ++ events
           /\ Forall (fun ev =>
                        ev = EvSleep 2
                        \/ exists batch,
                             batch ∈ bs /\ ev = EvPatch tool_uuid true batch)
                     events
  | None =>
      batch_size = 0
      /\ (batch_update_patterns remote tool_uuid patterns batch_size t).2 = t
  end
  /\ (length patterns = 2500%nat ->
      exists b1 b2 b3,
        batches patterns 1000 = Some [b1; b2; b3]
        /\ patterns = b1 ++ b2 ++ b3
        /\ map length [b1; b2; b3] = [1000; 1000; 500]%nat
        /\ ((forall t' batch, patch_tool remote t' tool_uuid true batch = inr tt) ->
            batch_update_patterns remote tool_uuid patterns 1000 t =
              (Returned tt,
               t ++ [EvPatch tool_uuid true b1; EvPatch tool_uuid true b2;
                     EvPatch tool_uuid true b3]))).
Proof.
  split.
  - destruct (Z.ltb_spec 0 batch_size) as [Hpos|Hneg].
    + destruct (batches_positive patterns batch_size Hpos)
        as (count & Hcover & Hbatches).
      unfold batch_update_patterns. rewrite Hbatches.
      split; [|split].
      * apply Forall_map, Forall_forall. intros k _. simpl.
        rewrite length_take. lia.
      * by apply concat_chunks.
      * apply update_batches_events.
    + unfold batch_update_patterns, batches, py_range.
      destruct (Z.eqb_spec batch_size 0) as [Hzero|Hnonzero]; [done|].
      destruct (Z.ltb_spec 0 batch_size) as [|_]; [lia|].
      destruct (Z.ltb_spec (Z.of_nat (length patterns)) 0) as [|_]; [lia|].
      simpl. split; [done|]. split; [done|].
      exists []. by rewrite app_nil_r.
  - intros Hlen.
    assert (batches patterns 1000 =
              Some [py_slice patterns 0 1000; py_slice patterns 1000 2000;
                    py_slice patterns 2000 3000]) as Hbatches.
    { unfold batches, py_range. rewrite Hlen. reflexivity. }
    exists (py_slice patterns 0 1000), (py_slice patterns 1000 2000),
           (py_slice patterns 2000 3000).
    split; [done|]. split; [|split].
    + unfold py_slice.
      change (Z.to_nat (1000 - 0)) with 1000%nat.
      change (Z.to_nat (2000 - 1000)) with 1000%nat.
      change (Z.to_nat (3000 - 2000)) with 1000%nat.
      change (Z.to_nat 0) with 0%nat.
      change (Z.to_nat 1000) with 1000%nat.
      change (Z.to_nat 2000) with (1000 + 1000)%nat.
      rewrite <- !drop_drop. rewrite drop_0.
      rewrite (take_ge (drop 1000 (drop 1000 patterns)))
        by (rewrite !length_drop; lia).
      by rewrite !take_drop.
    + unfold py_slice. cbn [map]. rewrite !length_take, !length_drop, Hlen.
      repeat f_equal; lia.
    + intros Hok. unfold batch_update_patterns. rewrite Hbatches.
      by rewrite update_batches_success.
Qed.

End RemoteProperties.

(** ** Config text normalizer *)

(** C9.  For the configuration whose [extends] array holds
    [eslint:recommended], [plugin:react/recommended] and [prettier], one
    per line, the normalisation yields the text of an object whose
    [extends] array holds exactly these three entries, each in double
    quotes, in this order.  This is so whether the key and the entries are
    written bare, in single quotes or in double quotes, and with or
    without a comma after the last entry. *)
Theorem C9_extends_array_normalised key entry trailing_comma :
  cleaned_content (extends_config key entry trailing_comma) =
    Some (normalised_extends extends_entries)
  /\ map (quoted Double) extends_entries =
       [DQ +:+ "eslint:recommended" +:+ DQ;
        DQ +:+ "plugin:react/recommended" +:+ DQ;
        DQ +:+ "prettier" +:+ DQ].
Proof.
  split; [|reflexivity].
  destruct key, entry, trailing_comma; vm_compute; reflexivity.
Qed.

(** ** The statements at sample inputs *)

Lemma C3_reconcile_witness :
  dir_enabled (mkDirective "ESLint8_semi" true []) = true
  /\ exists pattern catalog_pattern key,
       pattern ∈ [mkPattern "semi" true "semi" None]
       /\ catalog_pattern ∈ [catalog_entry "ESLint8_semi" [];
                              catalog_entry "ESLint8_quotes" []]
       /\ catalog_id catalog_pattern = Some "ESLint8_semi"
       /\ (key = "semi" \/ key = slash_to_underscore "semi")
       /\ (key = strip_eslint8 "ESLint8_semi"
           \/ key = slash_to_underscore (strip_eslint8 "ESLint8_semi"))
       /\ [] = default [] (pat_parameters pattern).
Proof.
  destruct (C3_reconcile_enables_matches_disables_rest
              [catalog_entry "ESLint8_semi" []; catalog_entry "ESLint8_quotes" []]
              [mkPattern "semi" true "semi" None]) as (Henabled & _ & _).
  destruct (Henabled (mkDirective "ESLint8_semi" true []))
    as (Htrue & pattern & cp & key & Hp & Hcp & Hid & Hk1 & Hk2 & Hparams).
  { vm_compute. left. }
  split; [exact Htrue|]. exists pattern, cp, key.
  assert (pattern = mkPattern "semi" true "semi" None) as ->.
  { apply list_elem_of_singleton in Hp. exact Hp. }
  repeat split; assumption.
Defined.

(** C5 as stated fails.  With the single catalog pattern [ESLint8_semi]
    the matching dictionary built before reconciliation does not have the
    raw identifier as a key; and in the dictionary of
    [map_eslint_to_codacy_patterns], when the catalog holds both
    [ESLint8_semi] and [semi], the raw and the stripped key of the first
    map to different definitions. *)
Lemma C5_counterexample :
  build_pattern_mapping [catalog_entry "ESLint8_semi" []] !! "ESLint8_semi" = None
  /\ (let catalog := [catalog_entry "ESLint8_semi" [("title", JStr "first")];
                      catalog_entry "semi" [("title", JStr "second")]] in
      codacy_pattern_map catalog !! "ESLint8_semi"
      <> codacy_pattern_map catalog !! strip_eslint8 "ESLint8_semi").
Proof. split; [reflexivity|]. vm_compute. discriminate. Qed.

Lemma C5_matching_dictionary_witness :
  let catalog := [catalog_entry "ESLint8_semi" []; catalog_entry "ESLint8_quotes" []] in
  codacy_pattern_map catalog !! "ESLint8_semi"
    = Some (mkPatternDefinition (Some "ESLint8_semi") [])
  /\ codacy_pattern_map catalog !! "semi"
     = Some (mkPatternDefinition (Some "ESLint8_semi") []).
Proof.
  destruct (C5_matching_dictionary_keys []
              (catalog_entry "ESLint8_semi" [])
              [catalog_entry "ESLint8_quotes" []]
              (mkPatternDefinition (Some "ESLint8_semi") [])
              "ESLint8_semi" eq_refl eq_refl)
    as (_ & _ & _ & _ & _ & Hsame).
  exact (Hsame eq_refl).
Defined.

(** C6 as stated fails.  Against a platform that refuses every update,
    [disable_all_tools] tries the tool three times, pausing twice, and
    then returns normally: nothing is raised to its caller. *)
Lemma C6_counterexample :
  disable_all_tools refusing_remote 0 [] =
    (Returned tt,
     [EvGetTools;
      EvPatch "tool-1" false []; EvSleep 2;
      EvPatch "tool-1" false []; EvSleep 2;
      EvPatch "tool-1" false []]).
Proof. reflexivity. Qed.

(** The sibling loop of [batch_update_patterns] does raise after its
    third failure. *)
Lemma batch_update_raises_after_three_failures :
  batch_update_patterns refusing_remote "tool-1" [mkDirective "ESLint8_semi" true []]
    1000 [] =
    (Raised (RequestException "503"),
     [EvPatch "tool-1" true [mkDirective "ESLint8_semi" true []]; EvSleep 2;
      EvPatch "tool-1" true [mkDirective "ESLint8_semi" true []]; EvSleep 2;
      EvPatch "tool-1" true [mkDirective "ESLint8_semi" true []]]).
Proof. reflexivity. Qed.

Lemma C7_batches_witness :
  exists b1 b2 b3,
    map length [b1; b2; b3] = [1000; 1000; 500]%nat
    /\ batch_update_patterns paged_remote ESLINT_TOOL_UUID
         (replicate 2500 (mkDirective "ESLint8_semi" true [])) 1000 [] =
       (Returned tt,
        [EvPatch ESLINT_TOOL_UUID true b1; EvPatch ESLINT_TOOL_UUID true b2;
         EvPatch ESLINT_TOOL_UUID true b3]).
Proof.
  destruct (C7_batches_bounded_consecutive paged_remote ESLINT_TOOL_UUID
              (replicate 2500 (mkDirective "ESLint8_semi" true [])) 1000 [])
    as [_ Hsample].
  destruct (Hsample (length_replicate 2500 _))
    as (b1 & b2 & b3 & _ & _ & Hsizes & Hcalls).
  exists b1, b2, b3. split; [exact Hsizes|].
  apply Hcalls. intros t' batch. reflexivity.
Defined.

Lemma sample_pages_served tool_uuid :
  served paged_remote tool_uuid [] None sample_pages.
Proof.
  eapply served_more; [reflexivity|reflexivity|].
  eapply served_more; [reflexivity|reflexivity|].
  apply served_last; reflexivity.
Defined.

Lemma C8_listing_witness :
  list_tool_patterns paged_remote 3 ESLINT_TOOL_UUID [] =
    (Returned (pages_data sample_pages),
     [EvGetPatterns ESLINT_TOOL_UUID None;
      EvGetPatterns ESLINT_TOOL_UUID (Some "p2");
      EvGetPatterns ESLINT_TOOL_UUID (Some "p3")])
  /\ length (pages_data sample_pages) = 240%nat.
Proof.
  destruct (C8_listing_drains_all_pages paged_remote ESLINT_TOOL_UUID
              sample_pages 3 [] (sample_pages_served _) (le_n 3))
    as (Hresult & _ & Hsizes).
  split; [exact Hresult|]. exact (proj1 (Hsizes eq_refl)).
Defined.

(** * Further properties *)

(** ** Rule translator *)

Section TranslatorFurther.

Variable finite_repr : bool -> positive -> Z -> string.

Abbreviation translate' := (map_eslint_rule_to_codacy finite_repr).

Lemma translate_inv rule_name rule_config p :
  translate' rule_name rule_config = Some p ->
  exists rc severity parameters,
    normalise_scalar rule_config = Some rc
    /\ split_config rc = Some (severity, parameters)
    /\ p = mkPattern rule_name true rule_name (map_parameters finite_repr parameters).
Proof.
  unfold map_eslint_rule_to_codacy.
  destruct (normalise_scalar rule_config) as [rc|] eqn:Hrc; [|done]. simpl.
  destruct (split_config rc) as [[severity parameters]|] eqn:Hsplit; [|done]. simpl.
  destruct (severity_enabled _); [|done].
  intros [= <-]. eauto 6.
Qed.

(** X1.  Whatever the rule, a pattern that the translator returns is enabled
    and carries the name of the rule, unchanged, as its id and as its
    patternId. Nothing is returned for [null], for an empty list, or for a
    number equal to zero on its own (0, 0.0, [False]). *)
Theorem translate_keeps_rule_name rule_name rule_config p
    (Hp : translate' rule_name rule_config = Some p) :
  pat_id p = rule_name
  /\ pat_patternId p = rule_name
  /\ pat_enabled p = true
  /\ rule_config <> JNull
  /\ rule_config <> JList []
  /\ (is_number rule_config = true -> py_eq_int rule_config 0 = false).
Proof.
  destruct (translate_inv _ _ _ Hp) as (rc & severity & parameters & Hrc & Hsplit & ->).
  repeat split; try done.
  - intros ->. cbv in Hrc. by simplify_eq.
  - intros ->. cbv in Hrc. by simplify_eq.
  - intros Hnum. unfold normalise_scalar in Hrc. rewrite Hnum in Hrc.
    by destruct (py_eq_int rule_config 0).
Qed.

(** X2.  When the payload of a translated rule is a non-empty mapping, the
    parameter list has one entry per key, with the keys as names in the
    order of the mapping. A string value is passed on unchanged, an integer
    as its decimal text, and a nested list or mapping as its JSON text. *)
Theorem translate_parameters_follow_mapping rule_name rule_config p d
    (Hp : translate' rule_name rule_config = Some p)
    (Hpayload : rule_payload rule_config = Some (JDict d))
    (Hnonempty : d <> []) :
  exists ps,
    pat_parameters p = Some ps
    /\ map param_name ps = map fst d
    /\ forall (i : nat) k v,
         d !! i = Some (k, v) ->
         exists q,
           ps !! i = Some q
           /\ param_name q = k
           /\ (forall s, v = JStr s -> param_value q = s)
           /\ (forall n, v = JInt n -> param_value q = pretty n)
           /\ (is_list_or_dict v = true -> param_value q = json_dumps finite_repr v).
Proof.
  destruct (translate_inv _ _ _ Hp) as (rc & severity & parameters & Hrc & Hsplit & ->).
  unfold rule_payload in Hpayload. rewrite Hrc in Hpayload. simpl in Hpayload.
  rewrite Hsplit in Hpayload. simpl in Hpayload. simplify_eq.
  simpl. rewrite map_parameters_spec.
  destruct d as [|kv d]; [done|].
  exists (map (mapped_param finite_repr) (kv :: d)).
  split; [done|]. split.
  - rewrite map_map. by apply map_ext.
  - intros i k v Hi. exists (mapped_param finite_repr (k, v)). split.
    + change (map (mapped_param finite_repr) (kv :: d))
        with (mapped_param finite_repr <$> (kv :: d)).
      by rewrite list_lookup_fmap, Hi.
    + unfold mapped_param. simpl. split; [done|]. split; [|split].
      * by intros s ->.
      * by intros n ->.
      * by intros ->.
Qed.

(** X3.  The loop of [main] keeps the rules in their order and drops some:
    the ids of the translated patterns are a sublist of the rule names, and
    every one of them is enabled. *)
Theorem new_patterns_sublist_of_rules (eslint_rules : list (string * json)) :
  sublist (map pat_id (new_patterns finite_repr eslint_rules)) (map fst eslint_rules)
  /\ Forall (fun p => pat_enabled p = true) (new_patterns finite_repr eslint_rules).
Proof.
  unfold new_patterns. induction eslint_rules as [|[name config] rules [IHs IHe]].
  - split; constructor.
  - cbn [omap list_omap map fst snd].
    destruct (map_eslint_rule_to_codacy finite_repr name config) as [p|] eqn:Hp.
    + destruct (translate_inv _ _ _ Hp) as (? & ? & ? & _ & _ & ->).
      split; [by apply sublist_skip|by constructor].
    + split; [by apply sublist_cons|done].
Qed.

End TranslatorFurther.

Lemma translate_keeps_rule_name_witness :
  pat_id (mkPattern "semi" true "semi" None) = "semi"
  /\ JStr "error" <> JNull.
Proof.
  destruct (translate_keeps_rule_name no_floats "semi" (JStr "error")
              (mkPattern "semi" true "semi" None) eq_refl)
    as (Hid & _ & _ & Hnull & _).
  exact (conj Hid Hnull).
Defined.

Lemma translate_parameters_witness :
  exists ps,
    pat_parameters
      (mkPattern "quotes" true "quotes"
         (Some [mkNameValue "avoidEscape" "True";
                mkNameValue "allow" ("[" +:+ DQ +:+ "a" +:+ DQ +:+ "]")])) = Some ps
    /\ map param_name ps = ["avoidEscape"; "allow"].
Proof.
  destruct (translate_parameters_follow_mapping no_floats "quotes"
              (JList [JStr "error";
                      JDict [("avoidEscape", JBool true);
                             ("allow", JList [JStr "a"])]])
              (mkPattern "quotes" true "quotes"
                 (Some [mkNameValue "avoidEscape" "True";
                        mkNameValue "allow" ("[" +:+ DQ +:+ "a" +:+ DQ +:+ "]")]))
              [("avoidEscape", JBool true); ("allow", JList [JStr "a"])]
              eq_refl eq_refl)
    as (ps & Hps & Hnames & _); [discriminate|].
  exists ps. exact (conj Hps Hnames).
Defined.

(** ** Pattern catalog reconciler *)

Lemma dir_id_disabled (enabled_patterns : list Directive) all_patterns :
  dir_id <$> disabled_patterns_of enabled_patterns all_patterns =
    filter (fun pattern_id => pattern_id ∉ dir_id <$> enabled_patterns)
           (omap catalog_id all_patterns).
Proof.
  rewrite disabled_patterns_filter, <- list_fmap_compose.
  generalize (filter (fun pattern_id => pattern_id ∉ dir_id <$> enabled_patterns)
                (omap catalog_id all_patterns)).
  intros l. induction l as [|x l IH]; [done|]. simpl. by f_equal.
Qed.

Lemma enabled_id_in_catalog all_patterns patterns pattern_id :
  pattern_id ∈ dir_id <$> enabled_patterns_of (build_pattern_mapping all_patterns) patterns ->
  pattern_id ∈ omap catalog_id all_patterns.
Proof.
  intros (d & -> & (pattern & _ & Hfind & _)%enabled_patterns_origin)%list_elem_of_fmap.
  apply find_codacy_id_Some in Hfind as (key & _ & Hlook).
  apply pattern_mapping_origin in Hlook as (cp & Hcp & Hid & _).
  apply list_elem_of_omap. eauto.
Qed.

(** X4.  The two lists of the reconciler split the catalog: an identifier is
    carried by an enable-directive or by a disable-directive exactly when it
    is the identifier of a catalog pattern, and never by both. *)
Theorem reconcile_partitions_catalog all_patterns patterns pattern_id :
  let enabled_ids := dir_id <$> (reconcile all_patterns patterns).1 in
  let disabled_ids := dir_id <$> (reconcile all_patterns patterns).2 in
  (pattern_id ∈ enabled_ids \/ pattern_id ∈ disabled_ids
   <-> pattern_id ∈ omap catalog_id all_patterns)
  /\ ~ (pattern_id ∈ enabled_ids /\ pattern_id ∈ disabled_ids).
Proof.
  unfold reconcile. simpl. rewrite dir_id_disabled, list_elem_of_filter.
  split; [split|].
  - intros [Hen|[_ Hcat]]; [|done]. by eapply enabled_id_in_catalog.
  - intros Hcat.
    destruct (decide (pattern_id ∈ dir_id <$>
                enabled_patterns_of (build_pattern_mapping all_patterns) patterns));
      auto.
  - intros [Hen [Hnot _]]. done.
Qed.

Lemma enabled_patterns_of_empty patterns :
  enabled_patterns_of ∅ patterns = [].
Proof.
  unfold enabled_patterns_of. induction patterns as [|pattern patterns IH]; [done|].
  simpl. rewrite IH. unfold enable_directive, find_codacy_id.
  by rewrite !lookup_empty.
Qed.

(** X5.  With an empty catalog the reconciler emits nothing, whatever the
    rules; with no rule it disables every catalog pattern that has an
    identifier, in catalog order. *)
Theorem reconcile_empty_inputs all_patterns patterns :
  reconcile [] patterns = ([], [])
  /\ reconcile all_patterns [] =
       ([], (fun pattern_id => mkDirective pattern_id false [])
              <$> omap catalog_id all_patterns).
Proof.
  split.
  - unfold reconcile. change (build_pattern_mapping []) with (∅ : gmap string string).
    by rewrite enabled_patterns_of_empty.
  - unfold reconcile. simpl. f_equal. rewrite disabled_patterns_filter.
    f_equal. induction (omap catalog_id all_patterns) as [|x l IH]; [done|].
    rewrite filter_cons, decide_True, IH; [done|]. apply not_elem_of_nil.
Qed.

(** X6.  The enable list has at most one directive per rule, and none with
    an empty identifier: a catalog pattern whose identifier is the empty
    string is never enabled. *)
Theorem enabled_patterns_bounded all_patterns patterns :
  let enabled_patterns := (reconcile all_patterns patterns).1 in
  (length enabled_patterns <= length patterns)%nat
  /\ Forall (fun d => dir_id d <> EmptyString /\ dir_enabled d = true) enabled_patterns.
Proof.
  unfold reconcile. simpl. unfold enabled_patterns_of.
  induction patterns as [|pattern patterns [IHl IHf]]; [split; [done|constructor]|].
  simpl. rewrite length_app. unfold enable_directive at 1 3.
  destruct (find_codacy_id _ _) as [codacy_id|]; [|split; [simpl; lia|done]].
  destruct (String.eqb_spec codacy_id EmptyString) as [|Hne];
    [split; [simpl; lia|done]|].
  split; [simpl; lia|]. by constructor.
Qed.

Lemma foldl_pattern_mapping_keeps_key acc (later : list CatalogPattern) key :
  forallb (fun pattern => negb (writes_mapping_key key pattern)) later = true ->
  foldl pattern_mapping_step acc later !! key = acc !! key.
Proof.
  revert acc. induction later as [|pattern later IH]; intros acc Hlater; [done|].
  simpl in *. apply andb_true_iff in Hlater as [Hpattern Hlater].
  rewrite IH by done. unfold pattern_mapping_step, writes_mapping_key in *.
  destruct (catalog_id pattern) as [other|]; [|done].
  apply negb_true_iff, orb_false_iff in Hpattern as [Hbase Hnorm].
  apply String.eqb_neq in Hbase, Hnorm.
  by rewrite !lookup_insert_ne.
Qed.

(** X7.  A key of the matching dictionary belongs to the last catalog
    pattern that writes it: a rule named like the stripped or the normalised
    identifier of a catalog pattern resolves to that pattern when no later
    catalog pattern has the same stripped or normalised identifier. *)
Theorem pattern_mapping_last_writer before pattern after pattern_id rule_name
    (Hid : catalog_id pattern = Some pattern_id)
    (Hwrites : writes_mapping_key rule_name pattern = true)
    (Hlater : forallb (fun later => negb (writes_mapping_key rule_name later)) after
              = true) :
  build_pattern_mapping (before ++ pattern :: after) !! rule_name = Some pattern_id
  /\ find_codacy_id (build_pattern_mapping (before ++ pattern :: after)) rule_name
     = Some pattern_id.
Proof.
  assert (build_pattern_mapping (before ++ pattern :: after) !! rule_name
          = Some pattern_id) as Hlook.
  { unfold build_pattern_mapping. rewrite foldl_app. simpl.
    rewrite foldl_pattern_mapping_keeps_key by done.
    unfold pattern_mapping_step, writes_mapping_key in *. rewrite Hid in *.
    destruct (String.eqb_spec rule_name
                (slash_to_underscore (strip_eslint8 pattern_id))) as [->|Hnorm].
    - by rewrite lookup_insert_eq.
    - rewrite orb_false_r in Hwrites. apply String.eqb_eq in Hwrites as ->.
      rewrite lookup_insert_ne by done. by rewrite lookup_insert_eq. }
  split; [done|]. unfold find_codacy_id. by rewrite Hlook.
Qed.

Lemma pattern_mapping_last_writer_witness :
  find_codacy_id
    (build_pattern_mapping [catalog_entry "ESLint8_semi" [];
                            catalog_entry "ESLint8_react/jsx-key" [];
                            catalog_entry "ESLint8_quotes" []])
    "react_jsx-key" = Some "ESLint8_react/jsx-key".
Proof.
  exact (proj2 (pattern_mapping_last_writer
                  [catalog_entry "ESLint8_semi" []]
                  (catalog_entry "ESLint8_react/jsx-key" [])
                  [catalog_entry "ESLint8_quotes" []]
                  "ESLint8_react/jsx-key" "react_jsx-key"
                  eq_refl eq_refl eq_refl)).
Defined.

(** X22.  A rule that resolves to a catalog pattern is enabled and not
    disabled: the enable list holds a directive with the identifier of the
    pattern and the parameters of the rule (none when the rule has no
    parameter list), and no disable-directive carries that identifier,
    however many catalog patterns share it. *)
Theorem matched_rule_is_enabled_not_disabled all_patterns patterns pattern codacy_id
    (Hin : pattern ∈ patterns)
    (Hfind : find_codacy_id (build_pattern_mapping all_patterns) (pat_id pattern)
             = Some codacy_id)
    (Hne : codacy_id <> EmptyString) :
  mkDirective codacy_id true (default [] (pat_parameters pattern))
    ∈ (reconcile all_patterns patterns).1
  /\ codacy_id ∉ dir_id <$> (reconcile all_patterns patterns).2.
Proof.
  assert (mkDirective codacy_id true (default [] (pat_parameters pattern))
            ∈ enabled_patterns_of (build_pattern_mapping all_patterns) patterns)
    as Henabled.
  { unfold enabled_patterns_of. rewrite list_elem_of_In, in_flat_map.
    exists pattern. split; [by apply list_elem_of_In|].
    unfold enable_directive. rewrite Hfind.
    apply String.eqb_neq in Hne. rewrite Hne. by left. }
  unfold reconcile. cbn [fst snd]. split; [done|].
  rewrite dir_id_disabled, list_elem_of_filter. intros [Hnot _]. apply Hnot.
  apply list_elem_of_fmap. eexists. split; [|exact Henabled]. done.
Qed.

Lemma matched_rule_witness :
  mkDirective "ESLint8_react_jsx-key" true []
    ∈ (reconcile [catalog_entry "ESLint8_semi" [];
                  catalog_entry "ESLint8_react_jsx-key" []]
                 [mkPattern "react/jsx-key" true "react/jsx-key" None]).1.
Proof.
  refine (proj1 (matched_rule_is_enabled_not_disabled
                   [catalog_entry "ESLint8_semi" [];
                    catalog_entry "ESLint8_react_jsx-key" []]
                   [mkPattern "react/jsx-key" true "react/jsx-key" None]
                   (mkPattern "react/jsx-key" true "react/jsx-key" None)
                   "ESLint8_react_jsx-key" _ eq_refl _)).
  - apply list_elem_of_here.
  - discriminate.
Defined.

(** ** [map_eslint_to_codacy_patterns] *)

Lemma in_pattern_ids_spec (ids : list string) name :
  in_pattern_ids ids name = true <-> name ∈ ids.
Proof.
  unfold in_pattern_ids. rewrite existsb_exists. split.
  - intros (x & Hin%list_elem_of_In & ->%String.eqb_eq). done.
  - intros Hin%list_elem_of_In. exists name. split; [done|apply String.eqb_refl].
Qed.

Lemma pattern_ids_spec all_codacy_patterns name :
  name ∈ pattern_ids all_codacy_patterns <->
  exists pattern pattern_id,
    pattern ∈ all_codacy_patterns
    /\ catalog_id pattern = Some pattern_id
    /\ String.prefix "ESLint8_" pattern_id = true
    /\ name = str_drop 8 pattern_id.
Proof.
  unfold pattern_ids. rewrite list_elem_of_In, in_flat_map. split.
  - intros (pattern & Hin%list_elem_of_In & Hname).
    destruct (catalog_id pattern) as [pattern_id|] eqn:Hid; [|done].
    destruct (String.prefix "ESLint8_" pattern_id) eqn:Hprefix; [|done].
    destruct Hname as [<-|[]]. eauto 6.
  - intros (pattern & pattern_id & Hin%list_elem_of_In & Hid & Hprefix & ->).
    exists pattern. split; [done|]. rewrite Hid, Hprefix. by left.
Qed.

Lemma find_matching_pattern_Some ids rule_name codacy_id :
  find_matching_pattern ids rule_name = Some codacy_id ->
  exists name,
    name ∈ ids
    /\ codacy_id = "ESLint8_" +:+ name
    /\ (name = rule_name
        \/ name = last_segment rule_name
        \/ name = slash_to_underscore rule_name).
Proof.
  unfold find_matching_pattern.
  destruct (in_pattern_ids ids rule_name) eqn:Hdirect.
  { intros [= <-]. apply in_pattern_ids_spec in Hdirect. eauto 6. }
  destruct (contains_char "/" rule_name && in_pattern_ids ids (last_segment rule_name))
    eqn:Hbase.
  { intros [= <-]. apply andb_true_iff in Hbase as [_ Hbase].
    apply in_pattern_ids_spec in Hbase. eauto 6. }
  destruct (in_pattern_ids ids (slash_to_underscore rule_name)) eqn:Hnorm; [|done].
  intros [= <-]. apply in_pattern_ids_spec in Hnorm. eauto 7.
Qed.

Lemma codacy_pattern_map_snoc all_codacy_patterns pattern :
  codacy_pattern_map (all_codacy_patterns ++ [pattern]) =
    codacy_pattern_map_step (codacy_pattern_map all_codacy_patterns) pattern.
Proof. unfold codacy_pattern_map. by rewrite foldl_app. Qed.

(** Every entry of the dictionary is the definition of a catalog pattern
    that writes its key. *)
Lemma codacy_pattern_map_origin all_codacy_patterns key definition :
  codacy_pattern_map all_codacy_patterns !! key = Some definition ->
  exists pattern pattern_id,
    pattern ∈ all_codacy_patterns
    /\ patternDefinition pattern = Some definition
    /\ def_id definition = Some pattern_id
    /\ writes_key pattern_id key = true.
Proof.
  induction all_codacy_patterns as [|pattern all_codacy_patterns IH] using rev_ind.
  - unfold codacy_pattern_map. simpl. by rewrite lookup_empty.
  - rewrite codacy_pattern_map_snoc. intros Hlook.
    assert (codacy_pattern_map all_codacy_patterns !! key = Some definition ->
            exists p pid, p ∈ all_codacy_patterns ++ [pattern]
              /\ patternDefinition p = Some definition
              /\ def_id definition = Some pid /\ writes_key pid key = true) as Hold.
    { intros (p & pid & Hin & ?)%IH. exists p, pid. rewrite elem_of_app. auto. }
    destruct (patternDefinition pattern) as [d|] eqn:Hdef.
    + destruct (def_id d) as [pid|] eqn:Hid.
      * rewrite (codacy_pattern_map_step_lookup _ _ _ _ _ Hdef Hid) in Hlook.
        destruct (writes_key pid key) eqn:Hwrites; [|auto].
        simplify_eq. exists pattern, pid.
        rewrite elem_of_app, list_elem_of_singleton. auto.
      * rewrite codacy_pattern_map_step_skip in Hlook; [auto|].
        unfold catalog_id. by rewrite Hdef.
    + rewrite codacy_pattern_map_step_skip in Hlook; [auto|].
      unfold catalog_id. by rewrite Hdef.
Qed.

(** Every stripped identifier of [pattern_ids] is a key of the
    dictionary. *)
Lemma pattern_ids_are_keys all_codacy_patterns name :
  name ∈ pattern_ids all_codacy_patterns ->
  is_Some (codacy_pattern_map all_codacy_patterns !! name).
Proof.
  intros (pattern & pattern_id & Hin & Hid & Hprefix & ->)%pattern_ids_spec.
  apply list_elem_of_split in Hin as (before & after & ->).
  unfold codacy_pattern_map. rewrite foldl_app. simpl.
  apply foldl_codacy_pattern_map_keeps.
  unfold catalog_id in Hid.
  destruct (patternDefinition pattern) as [definition|] eqn:Hdef; [|done].
  simpl in Hid.
  rewrite (codacy_pattern_map_step_lookup _ _ _ _ _ Hdef Hid).
  unfold writes_key, strip_eslint8. rewrite Hprefix, String.eqb_refl, orb_true_r.
  eauto.
Qed.

(** X8.  The subscript of line 64 never fails:
    [map_eslint_to_codacy_patterns] returns a dictionary for every catalog
    and every list of patterns. Each of its keys is the id of a pattern of
    the configuration, and the value is the definition of a catalog pattern
    that is filed under the rule name, under its last path segment, or under
    the name with slashes turned into underscores. *)
Theorem map_eslint_to_codacy_patterns_total eslint_patterns all_codacy_patterns :
  exists mapping_results,
    map_eslint_to_codacy_patterns eslint_patterns all_codacy_patterns
      = Some mapping_results
    /\ forall rule_name definition,
         mapping_results !! rule_name = Some definition ->
         (exists eslint_pattern,
            eslint_pattern ∈ eslint_patterns /\ pat_id eslint_pattern = rule_name)
         /\ exists pattern pattern_id name,
              pattern ∈ all_codacy_patterns
              /\ patternDefinition pattern = Some definition
              /\ def_id definition = Some pattern_id
              /\ writes_key pattern_id name = true
              /\ (name = rule_name
                  \/ name = last_segment rule_name
                  \/ name = slash_to_underscore rule_name).
Proof.
  unfold map_eslint_to_codacy_patterns.
  induction eslint_patterns as [|eslint_pattern eslint_patterns IH] using rev_ind.
  - exists ∅. split; [done|]. intros rule_name definition. by rewrite lookup_empty.
  - destruct IH as (acc & Hacc & Hsound). rewrite foldl_app.
    cbn [foldl]. rewrite Hacc.
    assert (forall rule_name definition,
               acc !! rule_name = Some definition ->
               (exists p, p ∈ eslint_patterns ++ [eslint_pattern]
                          /\ pat_id p = rule_name)
               /\ exists pattern pattern_id name,
                    pattern ∈ all_codacy_patterns
                    /\ patternDefinition pattern = Some definition
                    /\ def_id definition = Some pattern_id
                    /\ writes_key pattern_id name = true
                    /\ (name = rule_name \/ name = last_segment rule_name
                        \/ name = slash_to_underscore rule_name)) as Hold.
    { intros rule_name definition [(p & Hp & Hname) Hcat]%Hsound.
      split; [|done]. exists p. rewrite elem_of_app. auto. }
    unfold mapping_results_step.
    cbn -[codacy_pattern_map pattern_ids find_matching_pattern str_drop].
    destruct (find_matching_pattern _ _) as [codacy_id|] eqn:Hfind; [|eauto].
    destruct (String.eqb codacy_id EmptyString); [eauto|].
    apply find_matching_pattern_Some in Hfind as (name & Hname & -> & Hcandidate).
    change (str_drop 8 ("ESLint8_" +:+ name)) with name.
    destruct (pattern_ids_are_keys _ _ Hname) as [definition Hdefinition].
    rewrite Hdefinition. cbn [mbind option_bind].
    exists (<[pat_id eslint_pattern := definition]> acc). split; [done|].
    intros rule_name d Hlook.
    destruct (decide (pat_id eslint_pattern = rule_name)) as [<-|Hother].
    + rewrite lookup_insert_eq in Hlook. simplify_eq. split.
      * exists eslint_pattern. rewrite elem_of_app, list_elem_of_singleton. auto.
      * apply codacy_pattern_map_origin in Hdefinition
          as (pattern & pattern_id & Hin & Hdef & Hid & Hwrites).
        exists pattern, pattern_id, name. auto.
    + rewrite lookup_insert_ne in Hlook by done. auto.
Qed.

(** Unlike the reconciler, [find_matching_pattern] also tries the last
    path segment of a rule name, and before the normalised name: a rule
    with a plugin prefix matches the catalog pattern of the bare rule when
    the catalog has no pattern for the full name. *)
Lemma find_matching_pattern_drops_plugin_prefix ids rule_name
    (Hdirect : in_pattern_ids ids rule_name = false)
    (Hslash : contains_char "/"%char rule_name = true)
    (Hbase : in_pattern_ids ids (last_segment rule_name) = true) :
  find_matching_pattern ids rule_name = Some ("ESLint8_" +:+ last_segment rule_name).
Proof. unfold find_matching_pattern. by rewrite Hdirect, Hslash, Hbase. Qed.

(** ** Remote calls *)

Section RemoteFurther.

Variable remote : Remote.

(** *** Pattern listing *)

Lemma list_tool_patterns_loop_failed tool_uuid e pages :
  forall fuel all_patterns cursor t,
    served_then_failed remote tool_uuid e t (cursor_truthy cursor) pages ->
    (length pages < fuel)%nat ->
    exists events,
      list_tool_patterns_loop remote fuel tool_uuid all_patterns cursor t
        = (Raised e, t ++ events)
      /\ length events = S (length pages)
      /\ Forall (fun ev => exists c, ev = EvGetPatterns tool_uuid c) events.
Proof.
  induction pages as [|page rest IH]; intros fuel all_patterns cursor t Hserved Hfuel;
    (destruct fuel as [|fuel]; [simpl in Hfuel; lia|]);
    simpl; unfold mbind, M_bind, call;
    inversion Hserved as [t' c Hget | t' c p next rest' Hget Hnext Hrest]; subst;
    rewrite Hget.
  - exists [EvGetPatterns tool_uuid (cursor_truthy cursor)].
    split; [done|]. split; [done|]. constructor; [eauto|constructor].
  - rewrite Hnext.
    assert (Hcur : cursor_truthy (page_cursor page) = Some next) by done.
    rewrite <- Hcur in Hrest. simpl in Hfuel.
    destruct (IH fuel (all_patterns ++ default [] (page_data page))
                (page_cursor page) _ Hrest ltac:(lia))
      as (events & -> & Hlen & Hevents).
    exists (EvGetPatterns tool_uuid (cursor_truthy cursor) :: events).
    rewrite <- app_assoc. split; [done|]. split; [simpl; lia|].
    constructor; [eauto|done].
Qed.

(** X9.  When a request for a page raises, [list_tool_patterns] raises the
    same exception: the pages fetched before are not returned. One call was
    made per page served, and one more. *)
Theorem list_tool_patterns_propagates_failure tool_uuid e pages fuel t
    (Hserved : served_then_failed remote tool_uuid e t None pages)
    (Hfuel : (length pages < fuel)%nat) :
  exists events,
    list_tool_patterns remote fuel tool_uuid t = (Raised e, t ++ events)
    /\ length events = S (length pages)
    /\ Forall (fun ev => exists c, ev = EvGetPatterns tool_uuid c) events.
Proof.
  unfold list_tool_patterns.
  by apply (list_tool_patterns_loop_failed tool_uuid e pages fuel [] None t).
Qed.

Lemma list_tool_patterns_loop_endless tool_uuid :
  (forall t cursor, exists page next,
      get_patterns remote t tool_uuid cursor = inr page
      /\ cursor_truthy (page_cursor page) = Some next) ->
  forall fuel all_patterns cursor t,
    exists events,
      list_tool_patterns_loop remote fuel tool_uuid all_patterns cursor t
        = (OutOfFuel, t ++ events)
      /\ length events = fuel.
Proof.
  intros Hendless. induction fuel as [|fuel IH]; intros all_patterns cursor t.
  - exists []. by rewrite app_nil_r.
  - simpl. unfold mbind, M_bind, call.
    destruct (Hendless t (cursor_truthy cursor)) as (page & next & -> & ->).
    destruct (IH (all_patterns ++ default [] (page_data page)) (page_cursor page)
                (t ++ [EvGetPatterns tool_uuid (cursor_truthy cursor)]))
      as (events & -> & <-).
    exists (EvGetPatterns tool_uuid (cursor_truthy cursor) :: events).
    by rewrite <- app_assoc.
Qed.

(** X10.  The listing has no bound of its own: against a platform that
    returns a non-empty cursor with every page, the loop has not returned
    after any number of rounds, and has sent one request per round. *)
Theorem list_tool_patterns_never_returns_on_endless_cursor tool_uuid fuel t
    (Hendless : forall t' cursor, exists page next,
        get_patterns remote t' tool_uuid cursor = inr page
        /\ cursor_truthy (page_cursor page) = Some next) :
  exists events,
    list_tool_patterns remote fuel tool_uuid t = (OutOfFuel, t ++ events)
    /\ length events = fuel.
Proof. by apply list_tool_patterns_loop_endless. Qed.

(** *** Retries of an update *)

(** X11.  The three attempts of [batch_update_patterns] for one batch. An
    attempt that succeeds ends the loop; a [RequestException] is followed by
    a pause of 2 seconds and a new attempt, twice at most, and the third one
    is raised; any other exception is raised at once, without a new attempt. *)
Theorem patch_with_retries_outcomes tool_uuid batch t :
  let update := EvPatch tool_uuid true batch in
  patch_with_retries remote 3 tool_uuid batch t =
    match update_fails remote t tool_uuid batch with
    | None => (Returned tt, t ++ [update])
    | Some e1 =>
        if is_request_exception e1 then
          match update_fails remote (t ++ [update; EvSleep 2]) tool_uuid batch with
          | None => (Returned tt, t ++ [update; EvSleep 2; update])
          | Some e2 =>
              if is_request_exception e2 then
                match update_fails remote
                        (t ++ [update; EvSleep 2; update; EvSleep 2])
                        tool_uuid batch with
                | None =>
                    (Returned tt,
                     t ++ [update; EvSleep 2; update; EvSleep 2; update])
                | Some e3 =>
                    (Raised e3,
                     t ++ [update; EvSleep 2; update; EvSleep 2; update])
                end
              else (Raised e2, t ++ [update; EvSleep 2; update])
          end
        else (Raised e1, t ++ [update])
    end.
Proof.
  simpl. unfold update_fails, mbind, M_bind, catch, patch, call, sleep, mret, M_ret.
  destruct (patch_tool remote t tool_uuid true batch) as [e1|[]]; [|done].
  destruct (is_request_exception e1); [|done].
  rewrite <- !app_assoc. simpl.
  destruct (patch_tool remote (t ++ [EvPatch tool_uuid true batch; EvSleep 2])
              tool_uuid true batch) as [e2|[]]; [|done].
  destruct (is_request_exception e2); [|done].
  rewrite <- !app_assoc. simpl.
  destruct (patch_tool remote _ tool_uuid true batch) as [e3|[]]; [|done].
  by destruct (is_request_exception e3).
Qed.

Lemma patch_with_retries_accepted tool_uuid batch t :
  patch_tool remote t tool_uuid true batch = inr tt ->
  patch_with_retries remote 3 tool_uuid batch t
    = (Returned tt, t ++ [EvPatch tool_uuid true batch]).
Proof.
  intros Haccepted. simpl. unfold mbind, M_bind, catch, patch, call.
  by rewrite Haccepted.
Qed.

Lemma patch_with_retries_refused tool_uuid batch msg t :
  (forall t', patch_tool remote t' tool_uuid true batch
              = inl (RequestException msg)) ->
  let update := EvPatch tool_uuid true batch in
  patch_with_retries remote 3 tool_uuid batch t
    = (Raised (RequestException msg),
       t ++ [update; EvSleep 2; update; EvSleep 2; update]).
Proof.
  intros Hrefused. simpl.
  unfold mbind, M_bind, catch, patch, call, sleep, mret, M_ret.
  rewrite !Hrefused. simpl. rewrite !Hrefused. simpl. rewrite !Hrefused. simpl.
  by rewrite <- !app_assoc.
Qed.

(** X12.  A batch that the platform keeps refusing stops the whole update:
    the batches before it have been sent, it is tried three times, its
    exception is raised, and no later batch is sent. *)
Theorem update_batches_stops_at_refused_batch tool_uuid accepted batch rest msg t
    (Haccepted : forall t' b,
        b ∈ accepted -> patch_tool remote t' tool_uuid true b = inr tt)
    (Hrefused : forall t',
        patch_tool remote t' tool_uuid true batch = inl (RequestException msg)) :
  let update := EvPatch tool_uuid true batch in
  update_batches remote tool_uuid (accepted ++ batch :: rest) t =
    (Raised (RequestException msg),
     t ++ map (EvPatch tool_uuid true) accepted
       ++ [update; EvSleep 2; update; EvSleep 2; update]).
Proof.
  revert t. induction accepted as [|b accepted IH]; intros t.
  - cbn [app update_batches map]. unfold mbind, M_bind.
    by rewrite (patch_with_retries_refused _ _ msg).
  - cbn [app update_batches map]. unfold mbind, M_bind.
    rewrite patch_with_retries_accepted by (apply Haccepted; by left).
    rewrite IH; [by rewrite <- app_assoc|].
    intros t' b' Hb'. apply Haccepted. by right.
Qed.

(** *** Shape of the batches *)

Lemma batches_positive_exact patterns batch_size :
  0 < batch_size ->
  batches patterns batch_size =
    Some (map (fun k => take (Z.to_nat batch_size)
                          (drop (k * Z.to_nat batch_size) patterns))
              (seq 0 (Z.to_nat ((Z.of_nat (length patterns) + batch_size - 1)
                                / batch_size)))).
Proof.
  intros Hpos. unfold batches, py_range.
  destruct (Z.eqb_spec batch_size 0) as [|_]; [lia|].
  destruct (Z.ltb_spec 0 batch_size) as [_|]; [|lia].
  set (len := Z.of_nat (length patterns)).
  assert ((if 0 <? len then (len - 0 - 1) / batch_size + 1 else 0)
          = (len + batch_size - 1) / batch_size) as ->.
  { destruct (Z.ltb_spec 0 len) as [Hlen|Hlen].
    - replace (len + batch_size - 1) with (len - 0 - 1 + 1 * batch_size) by lia.
      rewrite Z.div_add by lia. done.
    - assert (len = 0) as -> by lia. rewrite Z.div_small; lia. }
  simpl. f_equal. rewrite map_map. apply map_ext. intros k.
  unfold py_slice. f_equal; [f_equal; lia|].
  f_equal. rewrite Z.add_0_l, Z2Nat.inj_mul, Nat2Z.id by lia. done.
Qed.

(** X13.  For a positive batch size there are as many batches as the length
    divided by the size, rounded up; none of them is empty, and all but the
    last hold exactly [batch_size] directives. An empty list gives no batch,
    hence no update. *)
Theorem batches_shape patterns batch_size (Hpos : 0 < batch_size) :
  exists bs,
    batches patterns batch_size = Some bs
    /\ Z.of_nat (length bs)
       = (Z.of_nat (length patterns) + batch_size - 1) / batch_size
    /\ Forall (fun batch => batch <> []) bs
    /\ (forall (i : nat) batch,
          bs !! i = Some batch -> (S i < length bs)%nat ->
          Z.of_nat (length batch) = batch_size)
    /\ (patterns = [] -> bs = []).
Proof.
  rewrite batches_positive_exact by done.
  set (len := Z.of_nat (length patterns)).
  set (q := (len + batch_size - 1) / batch_size).
  assert (0 <= q) as Hq by (apply Z.div_pos; lia).
  assert (batch_size * q <= len + batch_size - 1) as Hlow
    by (apply Z.mul_div_le; lia).
  eexists. split; [done|].
  assert (forall k : nat, (k < Z.to_nat q)%nat ->
            (k * Z.to_nat batch_size < length patterns)%nat) as Hstart.
  { intros k Hk. apply Nat2Z.inj_lt. rewrite Nat2Z.inj_mul, Z2Nat.id by lia.
    fold len. nia. }
  split; [|split; [|split]].
  - rewrite length_map, length_seq. lia.
  - apply Forall_map, Forall_forall. intros k Hk%elem_of_seq. simpl.
    specialize (Hstart k ltac:(lia)).
    intros Hempty%(f_equal length). rewrite length_take, length_drop in Hempty.
    simpl in Hempty. lia.
  - intros i batch Hi Hnext. rewrite length_map, length_seq in Hnext.
    rewrite list_lookup_fmap in Hi.
    destruct (seq 0 (Z.to_nat q) !! i) as [k|] eqn:Hk; [|done].
    apply lookup_seq in Hk as [-> _]. simpl in Hi. simplify_eq.
    rewrite length_take, length_drop.
    specialize (Hstart (S i) Hnext). simpl in *. lia.
  - intros ->. unfold q, len. simpl. rewrite Z.div_small by lia. done.
Qed.

(** *** Enabling the linter *)

(** X14.  When the catalog is served in pages and no update fails, enabling
    the linter lists the catalog first, then sends the enable-directives in
    batches of 1000, then the disable-directives in batches of 1000, every
    update with [enabled] set, and returns. *)
Theorem update_coding_standard_tool_sequence patterns pages fuel t
    (Hserved : served remote ESLINT_TOOL_UUID t None pages)
    (Hfuel : (length pages <= fuel)%nat)
    (Haccepted : forall t' batch,
        patch_tool remote t' ESLINT_TOOL_UUID true batch = inr tt) :
  exists enabled_batches disabled_batches,
    batches (reconcile (pages_data pages) patterns).1 1000 = Some enabled_batches
    /\ batches (reconcile (pages_data pages) patterns).2 1000 = Some disabled_batches
    /\ update_coding_standard_tool remote fuel ESLINT_TOOL_UUID true patterns t =
         (Returned tt,
          t ++ listing_calls ESLINT_TOOL_UUID None pages
            ++ map (EvPatch ESLINT_TOOL_UUID true) enabled_batches
            ++ map (EvPatch ESLINT_TOOL_UUID true) disabled_batches).
Proof.
  pose proof (batches_positive_exact (reconcile (pages_data pages) patterns).1 1000
                eq_refl) as Henabled.
  pose proof (batches_positive_exact (reconcile (pages_data pages) patterns).2 1000
                eq_refl) as Hdisabled.
  eexists _, _. split; [exact Henabled|]. split; [exact Hdisabled|].
  unfold update_coding_standard_tool. cbn [negb]. rewrite String.eqb_refl.
  unfold mbind at 1, M_bind at 1. unfold list_tool_patterns.
  rewrite (list_tool_patterns_loop_served remote ESLINT_TOOL_UUID pages fuel [] None t)
    by done.
  cbn [app cursor_truthy].
  destruct (reconcile (pages_data pages) patterns) as [enabled disabled] eqn:Hrec.
  cbn [fst snd] in *.
  assert (Z.to_nat ((Z.of_nat (length (@nil Directive)) + 1000 - 1) / 1000) = 0%nat)
    as Hnone by done.
  unfold mbind, M_bind.
  destruct enabled as [|d enabled].
  - rewrite Hnone. cbn [seq map app mret M_ret].
    destruct disabled as [|d disabled].
    + rewrite Hnone. cbn [seq map]. by rewrite app_nil_r.
    + unfold batch_update_patterns. rewrite Hdisabled.
      rewrite update_batches_success by done. by rewrite <- app_assoc.
  - unfold batch_update_patterns at 1. rewrite Henabled.
    rewrite update_batches_success by done.
    destruct disabled as [|d' disabled].
    + rewrite Hnone. cbn [seq map mret M_ret]. by rewrite app_nil_r, <- app_assoc.
    + unfold batch_update_patterns. rewrite Hdisabled.
      rewrite update_batches_success by done. by rewrite <- !app_assoc.
Qed.

(** X15.  When the catalog cannot be listed, enabling the linter raises the
    exception of the listing and sends no update at all. *)
Theorem update_coding_standard_tool_needs_catalog patterns e pages fuel t
    (Hfailed : served_then_failed remote ESLINT_TOOL_UUID e t None pages)
    (Hfuel : (length pages < fuel)%nat) :
  exists events,
    update_coding_standard_tool remote fuel ESLINT_TOOL_UUID true patterns t
      = (Raised e, t ++ events)
    /\ Forall (fun ev => exists c, ev = EvGetPatterns ESLINT_TOOL_UUID c) events.
Proof.
  destruct (list_tool_patterns_loop_failed ESLINT_TOOL_UUID e pages fuel [] None t
              Hfailed Hfuel) as (events & Hlist & _ & Hevents).
  exists events. split; [|done].
  unfold update_coding_standard_tool. cbn [negb]. rewrite String.eqb_refl.
  unfold mbind at 1, M_bind at 1. unfold list_tool_patterns. by rewrite Hlist.
Qed.

(** *** Disabling the tools *)

Lemma disable_with_retries_attempts fuel tool_uuid t :
  exists attempts,
    attempts ∈ disable_attempts tool_uuid
    /\ disable_with_retries remote fuel 3 tool_uuid t = (Returned tt, t ++ attempts).
Proof.
  unfold disable_attempts. simpl. rewrite !update_coding_standard_tool_disable.
  unfold mbind, M_bind, catch, patch, call, sleep, mret, M_ret.
  destruct (patch_tool remote t tool_uuid false []) as [e1|[]].
  2: { eexists. split; [|done]. set_unfold. auto. }
  rewrite <- !app_assoc. simpl.
  destruct (patch_tool remote (t ++ [EvPatch tool_uuid false []; EvSleep 2])
              tool_uuid false []) as [e2|[]].
  2: { eexists. split; [|done]. set_unfold. auto. }
  exists [EvPatch tool_uuid false []; EvSleep 2; EvPatch tool_uuid false [];
          EvSleep 2; EvPatch tool_uuid false []].
  split; [set_unfold; auto|].
  destruct (patch_tool remote _ tool_uuid false []) as [e3|[]];
    by rewrite <- !app_assoc.
Qed.

Lemma disable_each_attempts fuel tools t :
  exists segments,
    disable_each remote fuel tools t = (Returned tt, t ++ concat segments)
    /\ Forall2 (fun tool attempts => attempts ∈ disable_attempts (uuid tool))
               tools segments.
Proof.
  revert t. induction tools as [|tool tools IH]; intros t.
  - exists []. simpl. rewrite app_nil_r. split; [done|constructor].
  - cbn [disable_each]. unfold mbind, M_bind.
    destruct (disable_with_retries_attempts fuel (uuid tool) t)
      as (attempts & Hattempts & ->).
    destruct (IH (t ++ attempts)) as (segments & -> & Hsegments).
    exists (attempts :: segments). simpl. rewrite <- app_assoc.
    split; [done|by constructor].
Qed.

(** X16.  Once the tools are listed, [disable_all_tools] goes through all of
    them in the order of the listing and returns: each tool gets one, two or
    three updates with [enabled=false] and no pattern, whatever happened to
    the tools before it. *)
Theorem disable_all_tools_visits_every_tool fuel tools t
    (Htools : get_tools remote t = inr tools) :
  exists segments,
    disable_all_tools remote fuel t
      = (Returned tt, t ++ EvGetTools :: concat segments)
    /\ Forall2 (fun tool attempts => attempts ∈ disable_attempts (uuid tool))
               tools segments.
Proof.
  unfold disable_all_tools, list_coding_standard_tools, mbind, M_bind, call.
  rewrite Htools.
  destruct (disable_each_attempts fuel tools (t ++ [EvGetTools]))
    as (segments & -> & Hsegments).
  exists segments. by rewrite <- app_assoc.
Qed.

End RemoteFurther.

(** ** Config text normalizer *)

(** *** Empty files *)

Lemma lstrip_empty_iff p s : lstrip p s = EmptyString <-> all_chars p s = true.
Proof.
  induction s as [|c r IH]; [done|]. simpl.
  destruct (p c); simpl; [done|]. split; discriminate.
Qed.

Lemma lstrip_head p s c r : lstrip p s = String c r -> p c = false.
Proof.
  induction s as [|d s IH]; [done|]. simpl.
  destruct (p d) eqn:Hd; [done|]. by intros [= <- <-].
Qed.

Lemma rstrip_keeps_head p c r :
  p c = false -> exists r', rstrip p (String c r) = String c r'.
Proof.
  intros Hc. simpl. rewrite Hc. destruct (rstrip p r); eauto.
Qed.

Lemma strip_empty_iff p s : strip p s = EmptyString <-> all_chars p s = true.
Proof.
  unfold strip. rewrite <- lstrip_empty_iff.
  destruct (lstrip p s) as [|c r] eqn:Hl; [done|].
  destruct (rstrip_keeps_head p c r (lstrip_head _ _ _ _ Hl)) as [r' ->].
  split; discriminate.
Qed.

Lemma rstrip_idemp p s : rstrip p (rstrip p s) = rstrip p s.
Proof.
  induction s as [|c r IH]; [done|]. cbn [rstrip].
  destruct (rstrip p r) as [|d r'] eqn:Hr.
  - destruct (p c) eqn:Hc; [done|]. cbn [rstrip]. by rewrite Hc.
  - cbn [rstrip] in *. by rewrite IH.
Qed.

Lemma strip_idemp p s : strip p (strip p s) = strip p s.
Proof.
  unfold strip. destruct (lstrip p s) as [|c r] eqn:Hl; [done|].
  destruct (rstrip_keeps_head p c r (lstrip_head _ _ _ _ Hl)) as [r' Hr].
  rewrite Hr. cbn [lstrip]. rewrite (lstrip_head _ _ _ _ Hl).
  by rewrite <- Hr, rstrip_idemp.
Qed.

(** X17.  [parse_eslint_config] gives up before any transformation exactly
    when the file holds nothing but white space (an empty file included);
    every other text is normalised and handed to the JSON parser, and the
    text handed over has no white space left at either end. *)
Theorem cleaned_content_none_iff_blank content :
  (cleaned_content content = None <-> all_chars is_space content = true)
  /\ forall cleaned,
       cleaned_content content = Some cleaned -> strip is_space cleaned = cleaned.
Proof.
  unfold cleaned_content, clean_js_object. rewrite <- strip_empty_iff.
  destruct (String.eqb_spec (strip is_space content) EmptyString); split; try done.
  intros cleaned [= <-]. apply strip_idemp.
Qed.

(** *** Entries of the [extends] array *)

Lemma starts_with_lstrip c s :
  starts_with_char c (lstrip (is_char c) s) = false.
Proof.
  destruct (lstrip (is_char c) s) as [|d r] eqn:Hl; [done|].
  apply lstrip_head in Hl. simpl. unfold is_char in Hl.
  by rewrite Ascii.eqb_sym.
Qed.

Lemma starts_with_rstrip c s :
  starts_with_char c s = false ->
  starts_with_char c (rstrip (is_char c) s) = false.
Proof.
  destruct s as [|d r]; [done|]. simpl. intros Hd.
  unfold is_char. rewrite Ascii.eqb_sym, Hd. by destruct (rstrip _ r).
Qed.

Lemma ends_with_rstrip c s :
  ends_with_char c (rstrip (is_char c) s) = false.
Proof.
  induction s as [|d r IH]; [done|]. simpl.
  destruct (rstrip (is_char c) r) as [|e r'] eqn:Hr.
  - unfold is_char. destruct (Ascii.eqb c d) eqn:Hd; [done|].
    simpl. by rewrite Ascii.eqb_sym.
  - done.
Qed.

Lemma remove_char_clean c s :
  contains_char c (remove_char c s) = false.
Proof.
  induction s as [|d r IH]; [done|]. simpl.
  destruct (Ascii.eqb d c) eqn:Hd; [done|]. simpl. by rewrite Hd.
Qed.

Lemma contains_char_remove_other c d s :
  Ascii.eqb c d = false ->
  contains_char c (remove_char d s) = contains_char c s.
Proof.
  intros Hcd. induction s as [|e r IH]; [done|]. simpl.
  destruct (Ascii.eqb_spec e d) as [->|Hed].
  - rewrite IH. rewrite Ascii.eqb_sym, Hcd. done.
  - simpl. by rewrite IH.
Qed.

Lemma no_char_no_ends c s :
  contains_char c s = false ->
  starts_with_char c s = false /\ ends_with_char c s = false.
Proof.
  induction s as [|d r IH]; [done|]. simpl.
  intros [Hd Hr]%orb_false_iff. split; [done|].
  destruct r; [done|]. by apply IH.
Qed.

(** X18.  Whatever stands between the brackets, every entry that
    [preprocess_extends] writes is wrapped in one pair of double quotes:
    what is between them is not empty and neither begins nor ends with a
    double quote. *)
Theorem processed_lines_are_quoted extends_content entry
    (Hentry : In entry (processed_lines extends_content)) :
  exists inner,
    entry = DQ +:+ inner +:+ DQ
    /\ inner <> EmptyString
    /\ starts_with_char dquote inner = false
    /\ ends_with_char dquote inner = false.
Proof.
  unfold processed_lines in Hentry. apply in_flat_map in Hentry as (line & Hline & Hentry).
  unfold extends_lines in Hline. apply in_map_iff in Hline as (raw & <- & _).
  set (stripped := strip (is_char ",") (strip is_space raw)) in *.
  assert (starts_with_char dquote (strip (is_char dquote) stripped) = false
          /\ ends_with_char dquote (strip (is_char dquote) stripped) = false)
    as [Hstart Hend].
  { unfold strip. split; [|apply ends_with_rstrip].
    apply starts_with_rstrip, starts_with_lstrip. }
  set (line := strip (is_char dquote) stripped) in *.
  unfold process_line in Hentry.
  destruct (String.eqb_spec line EmptyString) as [|Hne]; [done|].
  destruct (String.prefix "eslint:" line);
    [destruct Hentry as [<-|[]]; eauto|].
  destruct (String.prefix "plugin:" line);
    [destruct Hentry as [<-|[]]; eauto|].
  destruct (contains_char ":" line) eqn:Hcolon.
  - destruct Hentry as [<-|[]]. exists (remove_char dquote line).
    split; [done|].
    destruct (no_char_no_ends dquote _ (remove_char_clean dquote line)).
    split; [|done]. intros Hempty.
    assert (contains_char ":" (remove_char dquote line) = true) as Hkept
      by by rewrite contains_char_remove_other.
    by rewrite Hempty in Hkept.
  - destruct (String.eqb_spec line "prettier") as [Hp|_];
      destruct Hentry as [<-|[]]; [rewrite <- Hp|]; eauto.
Qed.

Lemma processed_lines_are_quoted_witness :
  exists inner,
    DQ +:+ "airbnb" +:+ DQ = DQ +:+ inner +:+ DQ /\ inner <> EmptyString.
Proof.
  destruct (processed_lines_are_quoted
              (NL +:+ "    " +:+ DQ +:+ "airbnb" +:+ DQ +:+ "," +:+ NL)
              (DQ +:+ "airbnb" +:+ DQ))
    as (inner & Heq & Hne & _).
  { vm_compute. left. reflexivity. }
  exists inner. exact (conj Heq Hne).
Defined.

(** *** The substitutions of [clean_js_object] *)

Lemma star_greedy_shorter {R : Type} p s (k : string -> option R) x :
  star_greedy p s k = Some x ->
  exists s', (String.length s' <= String.length s)%nat /\ k s' = Some x.
Proof.
  induction s as [|c r IH]; simpl.
  - intros Hk. exists EmptyString. split; [simpl; lia|done].
  - assert (k (String c r) = Some x ->
            exists s', (String.length s' <= S (String.length r))%nat
                       /\ k s' = Some x) as Hhere.
    { intros Hk. exists (String c r). split; [simpl; lia|done]. }
    destruct (p c); [|done].
    destruct (star_greedy p r k) as [y|] eqn:Hr; [|done].
    intros [= ->]. destruct (IH eq_refl) as (s' & Hlen & Hk).
    exists s'. split; [lia|done].
Qed.

Lemma star_lazy_shorter {R : Type} p s (k : string -> option R) x :
  star_lazy p s k = Some x ->
  exists s', (String.length s' <= String.length s)%nat /\ k s' = Some x.
Proof.
  induction s as [|c r IH]; simpl.
  - destruct (k EmptyString) as [y|] eqn:Hk; [|done]. intros [= ->].
    exists EmptyString. split; [simpl; lia|done].
  - destruct (k (String c r)) as [y|] eqn:Hk.
    + intros [= ->]. exists (String c r). split; [simpl; lia|done].
    + destruct (p c); [|done].
      intros (s' & Hlen & Hk')%IH. exists s'. split; [lia|done].
Qed.

(** The continuation of a match is called on what is left of the text. *)
Lemma match_re_shorter r :
  forall (R : Type) s g (k : string -> option string -> option R) x,
    match_re r R s g k = Some x ->
    exists s' g', (String.length s' <= String.length s)%nat /\ k s' g' = Some x.
Proof.
  induction r as [|p|r1 IH1 r2 IH2|r1 IH1 r2 IH2|p|p|r1 IH1|r1 IH1];
    intros R s g k x; simpl.
  - intros Hk. exists s, g. split; [lia|done].
  - destruct s as [|c s']; [done|]. destruct (p c); [|done].
    intros Hk. exists s', g. split; [simpl; lia|done].
  - intros (s1 & g1 & Hlen1 & (s2 & g2 & Hlen2 & Hk)%IH2)%IH1.
    exists s2, g2. split; [lia|done].
  - destruct (match_re r1 R s g k) as [y|] eqn:H1.
    + intros [= ->]. by apply IH1 in H1.
    + apply IH2.
  - intros (s' & Hlen & Hk)%star_greedy_shorter. by exists s', g.
  - intros (s' & Hlen & Hk)%star_lazy_shorter. by exists s', g.
  - intros (s' & g' & Hlen & Hk)%IH1. by exists s', (Some (consumed s s')).
  - destruct (match_re r1 (option string) s g _) as [g'|]; [|done].
    intros Hk. exists s, g'. split; [lia|done].
Qed.

Lemma str_take_drop n s : str_take n s +:+ str_drop n s = s.
Proof.
  revert s. induction n as [|n IH]; intros [|c r]; try done.
  change (String c (str_take n r +:+ str_drop n r) = String c r).
  by rewrite IH.
Qed.

Lemma remove_char_app c a b :
  remove_char c (a +:+ b) = remove_char c a +:+ remove_char c b.
Proof.
  induction a as [|d a IH]; [done|]. simpl.
  destruct (Ascii.eqb d c); simpl; by rewrite IH.
Qed.

(** A substitution whose replacement differs from the matched text only
    in the character [c] changes nothing but occurrences of [c]. *)
Lemma re_sub_from_only_touches c r repl :
  (forall s s' g n,
     match_here r s = Some (s', g) ->
     (String.length s - String.length s')%nat = S n ->
     remove_char c (repl g) = remove_char c (str_take (S n) s)) ->
  forall s skip,
    remove_char c (re_sub_from r repl s skip) = remove_char c (str_drop skip s).
Proof.
  intros Hrepl. induction s as [|d rest IH]; intros skip.
  - by destruct skip.
  - destruct skip as [|skip]; [|apply IH].
    cbn [re_sub_from str_drop].
    assert (remove_char c (String d (re_sub_from r repl rest 0))
            = remove_char c (String d rest)) as Hcopy.
    { simpl. rewrite (IH O). simpl. done. }
    destruct (match_here r (String d rest)) as [[s' g]|] eqn:Hmatch; [|done].
    destruct (String.length (String d rest) - String.length s')%nat as [|n] eqn:Hn;
      [done|].
    rewrite remove_char_app, (Hrepl _ _ _ _ Hmatch Hn), (IH n).
    rewrite <- remove_char_app. f_equal.
    exact (str_take_drop (S n) (String d rest)).
Qed.

Lemma comma_group_match inner s s' g :
  match_here (Seq (Chr (is_char ",")) (Group inner)) s = Some (s', g) ->
  exists s1,
    s = String "," s1
    /\ g = Some (consumed s1 s')
    /\ (String.length s' <= String.length s1)%nat.
Proof.
  unfold match_here. cbn [match_re]. destruct s as [|c s1]; [done|].
  unfold is_char. destruct (Ascii.eqb_spec "," c) as [<-|]; [|done].
  intros (s2 & g2 & Hlen & [= <- <-])%match_re_shorter. eauto.
Qed.

Lemma comma_group_only_commas inner s :
  remove_char "," (re_sub (Seq (Chr (is_char ",")) (Group inner)) group1 s)
  = remove_char "," s.
Proof.
  unfold re_sub. rewrite re_sub_from_only_touches; [done|].
  intros t t' g n (t1 & -> & -> & Hlen)%comma_group_match Hn.
  simpl in Hn. unfold group1, consumed. simpl.
  replace (String.length t1 - String.length t')%nat with n by lia. done.
Qed.

(** X19.  The two substitutions that drop trailing commas (lines 286 and
    287) change nothing but commas: with the commas taken out, the text
    after them is the text before them. *)
Theorem trailing_comma_removal_only_drops_commas content :
  remove_char ","
    (re_sub trailing_comma_newline_pattern group1
       (re_sub trailing_comma_pattern group1 content))
  = remove_char "," content.
Proof.
  unfold trailing_comma_newline_pattern, trailing_comma_pattern. cbn [seqs].
  by rewrite !comma_group_only_commas.
Qed.

Lemma append_empty_r s : s +:+ EmptyString = s.
Proof.
  induction s as [|c r IH]; [done|].
  change (String c (r +:+ EmptyString) = String c r). by rewrite IH.
Qed.

Lemma key_pattern_match s s' g :
  match_here key_pattern s = Some (s', g) ->
  g = Some (consumed s s') /\ (String.length s' <= String.length s)%nat.
Proof.
  unfold match_here, key_pattern. cbn [seqs]. cbn [match_re].
  intros (s1 & g1 & Hlen & Hk)%match_re_shorter.
  destruct (star_greedy is_space s1 _) as [g'|] eqn:Hlook; [|done].
  simplify_eq. split; [|done].
  apply star_greedy_shorter in Hlook as (s2 & _ & Hlook).
  destruct s2 as [|c s2]; [done|]. destruct (is_char ":" c); [|done].
  by simplify_eq.
Qed.

(** X20.  The quoting of the keys (line 284) changes nothing but double
    quotes: with the double quotes taken out, the text after it is the text
    before it. *)
Theorem key_quoting_only_adds_quotes content :
  remove_char dquote
    (re_sub key_pattern (fun g => DQ +:+ group1 g +:+ DQ) content)
  = remove_char dquote content.
Proof.
  unfold re_sub. rewrite re_sub_from_only_touches; [done|].
  intros s s' g n [-> Hlen]%key_pattern_match Hn.
  rewrite !remove_char_app. unfold group1, consumed. cbn [default id]. rewrite Hn.
  change (remove_char dquote DQ) with EmptyString.
  by rewrite append_empty_r.
Qed.

Lemma comment_pattern_needs_slash c rest :
  Ascii.eqb c "/" = false -> match_here comment_pattern (String c rest) = None.
Proof.
  intros Hc. unfold match_here, comment_pattern.
  cbn [seqs lit match_re]. unfold is_char.
  by rewrite Ascii.eqb_sym, Hc.
Qed.

(** X21.  A text without any slash holds no comment: the removal of comments
    (line 275) returns it unchanged. *)
Theorem comment_removal_keeps_text_without_slash content
    (Hslash : contains_char "/" content = false) :
  re_sub comment_pattern (fun _ => EmptyString) content = content.
Proof.
  unfold re_sub. induction content as [|c rest IH]; [done|].
  simpl in Hslash. apply orb_false_iff in Hslash as [Hc Hrest].
  cbn [re_sub_from]. rewrite comment_pattern_needs_slash by done.
  by rewrite IH.
Qed.

Lemma comment_removal_witness :
  re_sub comment_pattern (fun _ => EmptyString) "{ rules: {} }" = "{ rules: {} }".
Proof. exact (comment_removal_keeps_text_without_slash "{ rules: {} }" eq_refl). Defined.

(** *** Single quotes *)

Lemma contains_char_app c a b :
  contains_char c (a +:+ b) = contains_char c a || contains_char c b.
Proof.
  induction a as [|d a IH]; [done|].
  change (contains_char c (String d (a +:+ b))
          = contains_char c (String d a) || contains_char c b).
  cbn [contains_char]. by rewrite IH, orb_assoc.
Qed.

Lemma contains_char_take c n s :
  contains_char c s = false -> contains_char c (str_take n s) = false.
Proof.
  revert s. induction n as [|n IH]; intros [|d r]; try done.
  cbn [str_take contains_char]. intros [Hd Hr]%orb_false_iff.
  by rewrite Hd, IH.
Qed.

Lemma contains_char_lstrip c p s :
  contains_char c s = false -> contains_char c (lstrip p s) = false.
Proof.
  induction s as [|d r IH]; [done|]. intros Hs. cbn [lstrip].
  destruct (p d); [|done]. apply IH.
  cbn [contains_char] in Hs. by apply orb_false_iff in Hs as [_ Hr].
Qed.

Lemma contains_char_rstrip c p s :
  contains_char c s = false -> contains_char c (rstrip p s) = false.
Proof.
  induction s as [|d r IH]; [done|]. cbn [rstrip contains_char].
  intros [Hd Hr]%orb_false_iff. specialize (IH Hr).
  destruct (rstrip p r) as [|e r'].
  - destruct (p d); [done|]. cbn [contains_char]. by rewrite Hd.
  - cbn [contains_char] in *. by rewrite Hd, IH.
Qed.

Lemma contains_char_strip c p s :
  contains_char c s = false -> contains_char c (strip p s) = false.
Proof. intros Hs. by apply contains_char_rstrip, contains_char_lstrip. Qed.

Lemma contains_char_remove c d s :
  contains_char c s = false -> contains_char c (remove_char d s) = false.
Proof.
  induction s as [|e r IH]; [done|]. cbn [remove_char contains_char].
  intros [He Hr]%orb_false_iff. specialize (IH Hr).
  destruct (Ascii.eqb e d); [done|]. cbn [contains_char]. by rewrite He, IH.
Qed.

Lemma contains_char_split c sep s piece :
  contains_char c s = false ->
  In piece (split_on sep s) -> contains_char c piece = false.
Proof.
  revert piece. induction s as [|d r IH]; intros piece Hs.
  - by intros [<-|[]].
  - cbn [contains_char] in Hs. apply orb_false_iff in Hs as [Hd Hr].
    cbn [split_on]. destruct (Ascii.eqb d sep).
    + intros [<-|Hin]; [done|]. by apply IH.
    + destruct (split_on sep r) as [|h t] eqn:Hsplit.
      * intros [<-|[]]. cbn [contains_char]. by rewrite Hd.
      * intros [<-|Hin].
        -- cbn [contains_char]. rewrite Hd. apply IH; [done|by left].
        -- apply IH; [done|by right].
Qed.

Lemma contains_char_concat c sep l :
  contains_char c sep = false ->
  (forall x, In x l -> contains_char c x = false) ->
  contains_char c (String.concat sep l) = false.
Proof.
  intros Hsep. induction l as [|x l IH]; intros Hl; [done|].
  cbn [String.concat]. destruct l as [|y l]; [apply Hl; by left|].
  change (contains_char c (x +:+ sep +:+ String.concat sep (y :: l)) = false).
  rewrite !contains_char_app, Hsep, (Hl x) by by left.
  apply IH. intros z Hz. apply Hl. by right.
Qed.

Lemma replace_char_absent old new s :
  Ascii.eqb new old = false -> contains_char old (replace_char old new s) = false.
Proof.
  intros Hnew. induction s as [|c r IH]; [done|].
  cbn [replace_char contains_char]. rewrite IH.
  by destruct (Ascii.eqb c old) eqn:Hc; [rewrite Hnew|rewrite Hc].
Qed.

Lemma star_greedy_absent {R : Type} c p s (k : string -> option R) x :
  contains_char c s = false ->
  star_greedy p s k = Some x ->
  exists s', contains_char c s' = false /\ k s' = Some x.
Proof.
  induction s as [|d r IH]; cbn [star_greedy]; intros Hs.
  - intros Hk. by exists EmptyString.
  - assert (contains_char c r = false) as Hr.
    { cbn [contains_char] in Hs. by apply orb_false_iff in Hs as [_ Hr]. }
    destruct (p d); [|intros Hk; by exists (String d r)].
    destruct (star_greedy p r k) as [y|] eqn:Hstar.
    + intros [= ->]. by apply IH.
    + intros Hk. by exists (String d r).
Qed.

Lemma star_lazy_absent {R : Type} c p s (k : string -> option R) x :
  contains_char c s = false ->
  star_lazy p s k = Some x ->
  exists s', contains_char c s' = false /\ k s' = Some x.
Proof.
  induction s as [|d r IH]; cbn [star_lazy]; intros Hs.
  - destruct (k EmptyString) as [y|] eqn:Hk; [|done]. intros [= ->].
    by exists EmptyString.
  - destruct (k (String d r)) as [y|] eqn:Hk.
    + intros [= ->]. by exists (String d r).
    + destruct (p d); [|done]. apply IH.
      cbn [contains_char] in Hs. by apply orb_false_iff in Hs as [_ Hr].
Qed.

(** A match neither finds nor captures a character that the text does
    not hold. *)
Lemma match_re_absent c r :
  forall (R : Type) s g (k : string -> option string -> option R) x,
    contains_char c s = false ->
    contains_char c (group1 g) = false ->
    match_re r R s g k = Some x ->
    exists s' g',
      contains_char c s' = false
      /\ contains_char c (group1 g') = false
      /\ k s' g' = Some x.
Proof.
  induction r as [|p|r1 IH1 r2 IH2|r1 IH1 r2 IH2|p|p|r1 IH1|r1 IH1];
    intros R s g k x Hs Hg; cbn [match_re].
  - intros Hk. by exists s, g.
  - destruct s as [|d s']; [done|]. destruct (p d); [|done].
    intros Hk. exists s', g. split; [|done].
    cbn [contains_char] in Hs. by apply orb_false_iff in Hs as [_ Hr].
  - intros (s1 & g1 & Hs1 & Hg1 & Hk)%IH1; [|done..]. by apply IH2 in Hk.
  - destruct (match_re r1 R s g k) as [y|] eqn:H1.
    + intros [= ->]. by apply IH1 in H1.
    + by apply IH2.
  - intros (s' & Hs' & Hk)%(star_greedy_absent c); [|done]. by exists s', g.
  - intros (s' & Hs' & Hk)%(star_lazy_absent c); [|done]. by exists s', g.
  - intros (s' & g' & Hs' & _ & Hk)%IH1; [|done..].
    exists s', (Some (consumed s s')). split; [done|]. split; [|done].
    by apply contains_char_take.
  - destruct (match_re r1 (option string) s g _) as [g'|] eqn:Hlook; [|done].
    apply IH1 in Hlook as (s1 & g1 & _ & Hg1 & [= <-]); [|done..].
    intros Hk. by exists s, g1.
Qed.

(** A substitution whose replacement is built from the captured text
    brings in no character that the text does not hold. *)
Lemma re_sub_from_absent c r repl :
  (forall g, contains_char c (group1 g) = false -> contains_char c (repl g) = false) ->
  forall s skip,
    contains_char c s = false -> contains_char c (re_sub_from r repl s skip) = false.
Proof.
  intros Hrepl. induction s as [|d rest IH]; intros skip Hs; [done|].
  assert (contains_char c rest = false /\ Ascii.eqb d c = false) as [Hrest Hd].
  { cbn [contains_char] in Hs. by apply orb_false_iff in Hs as [? ?]. }
  cbn [re_sub_from]. destruct skip as [|skip]; [|by apply IH].
  assert (contains_char c (String d (re_sub_from r repl rest 0)) = false) as Hcopy.
  { cbn [contains_char]. by rewrite Hd, IH. }
  destruct (match_here r (String d rest)) as [[s' g]|] eqn:Hmatch; [|done].
  destruct (String.length (String d rest) - String.length s')%nat; [done|].
  rewrite contains_char_app, IH by done.
  unfold match_here in Hmatch.
  apply (match_re_absent c) in Hmatch as (s1 & g1 & _ & Hg1 & [= _ <-]); [|done..].
  by rewrite Hrepl.
Qed.

Lemma process_extends_content_absent extends_content :
  contains_char squote extends_content = false ->
  contains_char squote (process_extends_content extends_content) = false.
Proof.
  intros Hcontent. unfold process_extends_content.
  rewrite !contains_char_app.
  rewrite contains_char_concat; [done|done|].
  intros entry (line & Hline & Hentry)%in_flat_map.
  unfold extends_lines in Hline. apply in_map_iff in Hline as (raw & <- & Hraw).
  apply (contains_char_split squote) in Hraw; [|done].
  set (line := strip (is_char dquote) (strip (is_char ",") (strip is_space raw))) in *.
  assert (contains_char squote line = false) as Hline
    by by do 3 apply contains_char_strip.
  assert (contains_char squote (DQ +:+ line +:+ DQ) = false) as Hquoted
    by by rewrite !contains_char_app, Hline.
  unfold process_line in Hentry.
  destruct (String.eqb line EmptyString); [done|].
  destruct (String.prefix "eslint:" line); [by destruct Hentry as [<-|[]]|].
  destruct (String.prefix "plugin:" line); [by destruct Hentry as [<-|[]]|].
  destruct (contains_char ":" line).
  - destruct Hentry as [<-|[]].
    by rewrite !contains_char_app, contains_char_remove.
  - destruct (String.eqb line "prettier"); by destruct Hentry as [<-|[]].
Qed.

(** X23.  No single quote reaches the JSON parser: [clean_js_object] returns
    a text for every input, and that text holds no single quote. Every
    single quote of the configuration is turned into a double quote, an
    apostrophe inside a double-quoted string included, and no later step
    brings one back. *)
Theorem clean_js_object_leaves_no_single_quote content :
  exists cleaned,
    clean_js_object content = Some cleaned
    /\ contains_char squote cleaned = false.
Proof.
  unfold clean_js_object. eexists. split; [done|].
  apply contains_char_strip.
  unfold re_sub, preprocess_extends, re_sub.
  apply re_sub_from_absent; [done|].
  apply re_sub_from_absent; [done|].
  apply re_sub_from_absent; [intros g Hg; by apply process_extends_content_absent|].
  apply re_sub_from_absent.
  { intros g Hg. by rewrite !contains_char_app, Hg. }
  by apply replace_char_absent.
Qed.

(** ** The entry point *)








Section MainFurther.

Variable json_loads : string -> option json.
Variable finite_repr : bool -> positive -> Z -> string.
Variable platform : Platform.

Abbreviation parse' := (parse_eslint_config json_loads).
Abbreviation main' := (main json_loads finite_repr platform).
Abbreviation configure' := (configure_standard platform).

(** X25.  A value that [parse_eslint_config] returns and that is not [None]
    is the [rules] entry of a configuration that [json.loads] read as a
    dictionary, or an empty dictionary when the entry is missing. A truthy
    value among them always has a length: a [rules] entry that is a non-zero
    number or [true] is turned into [None], while an entry that is falsy or
    has a length is returned as it is. *)
Theorem parse_eslint_config_result file :
  let rules := parse' file in
  (py_truthy rules = true -> has_len rules = true)
  /\ (rules <> JNull ->
      exists content cleaned items,
        file = inr content
        /\ cleaned_content content = Some cleaned
        /\ json_loads cleaned = Some (JDict items)
        /\ rules = default (JDict []) (dict_get "rules" items))
  /\ (forall content cleaned items,
        file = inr content ->
        cleaned_content content = Some cleaned ->
        json_loads cleaned = Some (JDict items) ->
        let entry := default (JDict []) (dict_get "rules" items) in
        rules = if py_truthy entry && negb (has_len entry) then JNull else entry).
Proof.
  unfold parse_eslint_config. cbn zeta. split; [|split].
  - destruct file as [e|content]; [done|].
    destruct (cleaned_content content) as [cleaned|]; [|done].
    destruct (json_loads cleaned) as [config|]; [|done].
    destruct config as [| | | | | |items]; try done.
    unfold rules_of_config. cbn zeta.
    destruct (py_truthy (default (JDict []) (dict_get "rules" items))) eqn:Htruthy.
    + by destruct (has_len (default (JDict []) (dict_get "rules" items))) eqn:Hlen.
    + by rewrite Htruthy.
  - destruct file as [e|content]; [done|].
    destruct (cleaned_content content) as [cleaned|] eqn:Hcleaned; [|done].
    destruct (json_loads cleaned) as [config|] eqn:Hloads; [|done].
    destruct config as [| | | | | |items]; try done.
    unfold rules_of_config. cbn zeta.
    destruct (py_truthy (default (JDict []) (dict_get "rules" items))).
    + destruct (has_len (default (JDict []) (dict_get "rules" items))); [|done].
      intros _. by exists content, cleaned, items.
    + intros _. by exists content, cleaned, items.
  - intros content cleaned items -> Hcleaned Hloads. rewrite Hcleaned, Hloads.
    unfold rules_of_config. cbn zeta.
    destruct (py_truthy (default (JDict []) (dict_get "rules" items))); [|done].
    by destruct (has_len (default (JDict []) (dict_get "rules" items))).
Qed.

Lemma configure_standard_starts fuel name new_patterns :
  exists rest, (configure' fuel name new_patterns).2 = EvCreate name :: rest.
Proof.
  unfold configure_standard.
  destruct (create_standard platform name) as [e|standard]; [by eexists|].
  destruct (subscript "data" standard ≫= subscript "id") as [coding_standard_id|];
    [|by eexists].
  match goal with
  | |- context [let '(_, _) := ?m in _] => destruct m as [result t]
  end.
  destruct result as [[]| |]; [|by eexists..].
  destruct (promote_standard platform coding_standard_id t); by eexists.
Qed.

(** X26.  [main] sends nothing unless it has a pattern to configure:
    whenever it does anything to the outside, the provider is one of [gh],
    [gl] and [bb], the file exists, the configuration was read as a
    dictionary of rules of which one at least translates to a pattern, and
    the first thing done is the creation of the standard. *)
Theorem main_needs_translated_rule fuel provider name isfile file ev
    (Hev : ev ∈ (main' fuel provider name isfile file).2) :
  provider ∈ ["gh"; "gl"; "bb"]
  /\ isfile = true
  /\ exists eslint_rules rest,
       parse' file = JDict eslint_rules
       /\ new_patterns finite_repr eslint_rules <> []
       /\ (main' fuel provider name isfile file).2 = EvCreate name :: rest.
Proof.
  unfold main in *.
  destruct (existsb (String.eqb provider) ["gh"; "gl"; "bb"]) eqn:Hprovider;
    [|by apply elem_of_nil in Hev].
  destruct isfile; [|by apply elem_of_nil in Hev].
  cbn [negb] in *. split; [|split; [done|]].
  { apply existsb_exists in Hprovider as (p & Hin%list_elem_of_In & <-%String.eqb_eq).
    done. }
  destruct (parse' file) as [| | | | | |eslint_rules];
    try by apply elem_of_nil in Hev.
  destruct (new_patterns finite_repr eslint_rules) as [|pattern patterns] eqn:Hnew;
    [by apply elem_of_nil in Hev|].
  destruct (configure_standard_starts fuel name (pattern :: patterns)) as [rest Hrest].
  exists eslint_rules, rest. by rewrite Hnew.
Qed.



(** X28.  When the catalog of the ESLint tool cannot be listed, [main]
    returns without raising and leaves the standard as a draft: it was
    created, every tool was visited for disabling, the listing was tried,
    and neither an update of patterns nor the promotion nor the result file
    follows. *)
Theorem main_leaves_draft_when_listing_fails fuel provider name file eslint_rules
    standard coding_standard_id tools e pages
    (Hprovider : provider ∈ ["gh"; "gl"; "bb"])
    (Hrules : parse' file = JDict eslint_rules)
    (Hpatterns : new_patterns finite_repr eslint_rules <> [])
    (Hcreate : create_standard platform name = inr standard)
    (Hid : subscript "data" standard ≫= subscript "id" = Some coding_standard_id)
    (Htools : get_tools (standard_remote platform coding_standard_id) [] = inr tools)
    (Hfailed : forall t,
        served_then_failed (standard_remote platform coding_standard_id)
          ESLINT_TOOL_UUID e t None pages)
    (Hfuel : (length pages < fuel)%nat) :
  exists segments events,
    main' fuel provider name true file
      = (Returned tt,
         EvCreate name
         :: map (EvStandard coding_standard_id)
              (EvGetTools :: concat segments ++ events))
    /\ Forall2 (fun tool attempts => attempts ∈ disable_attempts (uuid tool))
               tools segments
    /\ length events = S (length pages)
    /\ Forall (fun ev => exists c, ev = EvGetPatterns ESLINT_TOOL_UUID c) events.
Proof.
  set (remote := standard_remote platform coding_standard_id) in *.
  destruct (disable_each_attempts remote fuel tools [EvGetTools])
    as (segments & Hdisable & Hsegments).
  destruct (list_tool_patterns_loop_failed remote ESLINT_TOOL_UUID e pages fuel [] None
              ([EvGetTools] ++ concat segments) (Hfailed _) Hfuel)
    as (events & Hlist & Hlen & Hevents).
  exists segments, events. split; [|done].
  unfold main.
  assert (existsb (String.eqb provider) ["gh"; "gl"; "bb"] = true) as ->.
  { apply existsb_exists. exists provider.
    split; [by apply list_elem_of_In|apply String.eqb_refl]. }
  cbn [negb]. rewrite Hrules.
  destruct (new_patterns finite_repr eslint_rules) as [|pattern patterns]; [done|].
  unfold configure_standard. rewrite Hcreate, Hid. fold remote.
  assert ((disable_all_tools remote fuel ≫= fun _ =>
           update_coding_standard_tool remote fuel ESLINT_TOOL_UUID true
             (pattern :: patterns)) []
          = (Raised e, EvGetTools :: concat segments ++ events)) as ->; [|done].
  unfold disable_all_tools, list_coding_standard_tools, mbind, M_bind, call.
  rewrite Htools. cbn [app]. rewrite Hdisable.
  unfold update_coding_standard_tool. cbn [negb]. rewrite String.eqb_refl.
  unfold mbind, M_bind, list_tool_patterns. rewrite Hlist.
  by rewrite <- app_assoc.
Qed.

End MainFurther.

(** ** The further statements at sample inputs *)

Lemma list_tool_patterns_failure_witness :
  exists events,
    list_tool_patterns breaking_remote 5 ESLINT_TOOL_UUID []
      = (Raised (RequestException "500"), [] ++ events)
    /\ length events = 2%nat.
Proof.
  destruct (list_tool_patterns_propagates_failure breaking_remote ESLINT_TOOL_UUID
              (RequestException "500") [sample_page 100 (Some "p2")] 5 [])
    as (events & Hresult & Hlen & _).
  - eapply failed_later; [reflexivity|reflexivity|]. by apply failed_now.
  - simpl. lia.
  - exists events. exact (conj Hresult Hlen).
Defined.

Lemma list_tool_patterns_endless_witness :
  exists events,
    list_tool_patterns endless_remote 7 ESLINT_TOOL_UUID [] = (OutOfFuel, [] ++ events)
    /\ length events = 7%nat.
Proof.
  apply (list_tool_patterns_never_returns_on_endless_cursor endless_remote
           ESLINT_TOOL_UUID 7 []).
  intros t' cursor. exists (sample_page 1 (Some "next")), "next". by split.
Defined.

Lemma update_batches_stops_witness :
  let one := [mkDirective "ESLint8_semi" true []] in
  let two := [mkDirective "ESLint8_quotes" true []; mkDirective "ESLint8_eqeqeq" true []] in
  update_batches picky_remote "tool-1" ([one] ++ two :: [one]) [] =
    (Raised (RequestException "413"),
     [] ++ map (EvPatch "tool-1" true) [one]
        ++ [EvPatch "tool-1" true two; EvSleep 2; EvPatch "tool-1" true two;
            EvSleep 2; EvPatch "tool-1" true two]).
Proof.
  intros one two.
  apply (update_batches_stops_at_refused_batch picky_remote "tool-1" [one] two [one]
           "413" []).
  - intros t' b ->%list_elem_of_singleton. reflexivity.
  - intros t'. reflexivity.
Defined.

Lemma batches_shape_witness :
  exists bs,
    batches (replicate 5 (mkDirective "ESLint8_semi" true [])) 2 = Some bs
    /\ Z.of_nat (length bs) = 3.
Proof.
  destruct (batches_shape (replicate 5 (mkDirective "ESLint8_semi" true [])) 2 eq_refl)
    as (bs & Hbs & Hcount & _).
  exists bs. split; [exact Hbs|]. rewrite Hcount. reflexivity.
Defined.

Lemma update_coding_standard_tool_sequence_witness :
  exists enabled_batches disabled_batches,
    update_coding_standard_tool paged_remote 3 ESLINT_TOOL_UUID true
      [mkPattern "semi" true "semi" None] [] =
      (Returned tt,
       [] ++ listing_calls ESLINT_TOOL_UUID None sample_pages
          ++ map (EvPatch ESLINT_TOOL_UUID true) enabled_batches
          ++ map (EvPatch ESLINT_TOOL_UUID true) disabled_batches).
Proof.
  destruct (update_coding_standard_tool_sequence paged_remote
              [mkPattern "semi" true "semi" None] sample_pages 3 []
              (sample_pages_served _) (le_n 3))
    as (enabled_batches & disabled_batches & _ & _ & Hrun).
  - intros t' batch. reflexivity.
  - exists enabled_batches, disabled_batches. exact Hrun.
Defined.

Lemma update_coding_standard_tool_needs_catalog_witness :
  exists events,
    update_coding_standard_tool breaking_remote 5 ESLINT_TOOL_UUID true
      [mkPattern "semi" true "semi" None] []
      = (Raised (RequestException "500"), [] ++ events).
Proof.
  destruct (update_coding_standard_tool_needs_catalog breaking_remote
              [mkPattern "semi" true "semi" None]
              (RequestException "500") [sample_page 100 (Some "p2")] 5 [])
    as (events & Hresult & _).
  - eapply failed_later; [reflexivity|reflexivity|]. by apply failed_now.
  - simpl. lia.
  - exists events. exact Hresult.
Defined.

Lemma disable_all_tools_visits_witness :
  exists segments,
    disable_all_tools refusing_remote 0 []
      = (Returned tt, [] ++ EvGetTools :: concat segments)
    /\ length segments = 1%nat.
Proof.
  destruct (disable_all_tools_visits_every_tool refusing_remote 0
              [mkTool "tool-1"] [] eq_refl)
    as (segments & Hrun & Hsegments).
  exists segments. split; [exact Hrun|].
  apply Forall2_length in Hsegments. by rewrite <- Hsegments.
Defined.

Lemma main_needs_translated_rule_witness :
  exists eslint_rules,
    parse_eslint_config sample_loads (inr "{ }") = JDict eslint_rules
    /\ new_patterns no_floats eslint_rules <> [].
Proof.
  destruct (main_needs_translated_rule sample_loads no_floats
              (sample_platform picky_remote) 3 "gh" "Web" true (inr "{ }")
              (EvCreate "Web"))
    as (_ & _ & eslint_rules & rest & Hparse & Hnew & _).
  - vm_compute. apply list_elem_of_here.
  - exists eslint_rules. exact (conj Hparse Hnew).
Defined.


Lemma main_leaves_draft_witness :
  exists segments events,
    main sample_loads no_floats (sample_platform breaking_remote) 5 "gh" "Web" true
      (inr "{ }")
    = (Returned tt,
       EvCreate "Web"
       :: map (EvStandard (JInt 42)) (EvGetTools :: concat segments ++ events))
    /\ length events = 2%nat.
Proof.
  destruct (main_leaves_draft_when_listing_fails sample_loads no_floats
              (sample_platform breaking_remote) 5 "gh" "Web" (inr "{ }")
              [("semi", JStr "error")]
              (JDict [("data", JDict [("id", JInt 42)])]) (JInt 42) []
              (RequestException "500") [sample_page 100 (Some "p2")])
    as (segments & events & Hrun & _ & Hlen & _).
  - set_unfold. auto.
  - reflexivity.
  - discriminate.
  - reflexivity.
  - reflexivity.
  - reflexivity.
  - intros t. eapply failed_later; [reflexivity|reflexivity|]. by apply failed_now.
  - simpl. lia.
  - exists segments, events. exact (conj Hrun Hlen).
Defined.
